(** * Pintos kernel bitmap (lib/kernel/bitmap.c): region scan strategies

    A shallow embedding of the bitmap of lib/kernel/bitmap.c and of its
    region scanner [bitmap_scan] with the four page-allocation policies
    (first fit, next fit, best fit, buddy system), followed by the
    properties of the scanner.

    Conventions of the embedding.
    - [size_t] and [elem_type] are 32-bit unsigned integers (the file
      targets IA-32: see the [orl]/[andl]/[xorl] instructions), modelled
      as [Z] with the wrap-around written out ([wrap]).
    - A failed [ASSERT] panics the kernel: result [Panic].  The bitmap
      pointer is never null in the model, so [ASSERT (b != NULL)] always
      holds and is left out.
    - The [while (true)] loops and the [for] loops of the scanner take a
      [fuel] argument; [OutOfFuel] is the answer of a loop that is still
      running when the fuel is gone.
    - The function-local statics of [bitmap_scan] ([latest], [check_cnt],
      [check_size]) are an explicit record threaded through the calls;
      the global [pallocator] is an argument.
    - The two [printf] calls of the buddy walk write to the console only;
      console output is not part of the model. *)

From Stdlib Require Import ZArith Bool Lia.
From stdpp Require Import base list.

Local Open Scope Z_scope.

(** ** Machine integers *)

Module Mach.

(** Width of [size_t] and of [elem_type] ([unsigned long]) on IA-32. *)
Definition SIZE_BITS : Z := 32.
Definition SIZE_MOD : Z := 2 ^ SIZE_BITS.
Definition SIZE_MAX : Z := SIZE_MOD - 1.

(** Unsigned arithmetic is modulo [SIZE_MOD]. *)
Definition wrap (z : Z) : Z := z mod SIZE_MOD.

Definition is_size (z : Z) : Prop := 0 <= z <= SIZE_MAX.

End Mach.
Export Mach.

(** ** Results of kernel code *)

Inductive result (A : Type) : Type :=
| Ret (a : A)
| Panic
| OutOfFuel.
Arguments Ret {A} a.
Arguments Panic {A}.
Arguments OutOfFuel {A}.

Definition bind {A B : Type} (c : result A) (k : A -> result B) : result B :=
  match c with
  | Ret a => k a
  | Panic => Panic
  | OutOfFuel => OutOfFuel
  end.

Notation "x <- c ;; k" := (bind c (fun x => k))
  (at level 100, c at next level, right associativity).

(** Modelled from the spec: [ASSERT] comes from debug.h, which is not part
    of the sources at hand; the spec makes a precondition violation fatal
    to the calling context, "never recovered internally".
    [ASSERT (c)] panics when [c] is false. *)
Definition ASSERT (c : bool) : result unit :=
  if c then Ret tt else Panic.

(** ** The bitmap *)

(** Number of bits in an element. *)
Definition ELEM_BITS : Z := 32.
Definition ELEM_MAX : Z := 2 ^ ELEM_BITS - 1.

(** [struct bitmap]: [bits] is the array of elements. *)
Record bitmap : Type := mk_bitmap {
  bit_cnt : Z;
  bits : list Z
}.

(** The array holds an element for every bit of the bitmap. *)
Definition wf_bitmap (b : bitmap) : Prop :=
  0 <= bit_cnt b <= SIZE_MAX /\
  bit_cnt b <= ELEM_BITS * Z.of_nat (length (bits b)).

Definition elem_idx (bit_idx : Z) : Z := bit_idx / ELEM_BITS.

Definition bit_mask (bit_idx : Z) : Z :=
  wrap (Z.shiftl 1 (bit_idx mod ELEM_BITS)).

(** [b->bits[idx]]; the code reads the array only below [bit_cnt]. *)
Definition elem_at (b : bitmap) (idx : Z) : Z :=
  default 0 (bits b !! Z.to_nat idx).

Definition elem_store (b : bitmap) (idx : Z) (w : Z) : bitmap :=
  mk_bitmap (bit_cnt b) (<[Z.to_nat idx := w]> (bits b)).

Definition bitmap_size (b : bitmap) : Z := bit_cnt b.

(** [orl %1, %0]: [b->bits[idx] |= mask]. *)
Definition bitmap_mark (b : bitmap) (bit_idx : Z) : bitmap :=
  let idx := elem_idx bit_idx in
  let mask := bit_mask bit_idx in
  elem_store b idx (Z.lor (elem_at b idx) mask).

(** [andl %1, %0] with [~mask]: [b->bits[idx] &= ~mask]. *)
Definition bitmap_reset (b : bitmap) (bit_idx : Z) : bitmap :=
  let idx := elem_idx bit_idx in
  let mask := bit_mask bit_idx in
  elem_store b idx (Z.land (elem_at b idx) (Z.lxor mask ELEM_MAX)).

(** [xorl %1, %0]: [b->bits[idx] ^= mask]. *)
Definition bitmap_flip (b : bitmap) (bit_idx : Z) : bitmap :=
  let idx := elem_idx bit_idx in
  let mask := bit_mask bit_idx in
  elem_store b idx (Z.lxor (elem_at b idx) mask).

Definition bitmap_set (b : bitmap) (idx : Z) (value : bool) : result bitmap :=
  _ <- ASSERT (idx <? bit_cnt b) ;;
  Ret (if value then bitmap_mark b idx else bitmap_reset b idx).

(** The bit read by [bitmap_test], without its assertion. *)
Definition bit_at (b : bitmap) (idx : Z) : bool :=
  negb (Z.land (elem_at b (elem_idx idx)) (bit_mask idx) =? 0).

Definition bitmap_test (b : bitmap) (idx : Z) : result bool :=
  _ <- ASSERT (idx <? bit_cnt b) ;;
  Ret (bit_at b idx).

(** [for (i = 0; i < cnt; i++) bitmap_set (b, start + i, value);]
    [n] is the number of iterations left: the loop runs [cnt] times. *)
Fixpoint set_multiple_loop (n : nat) (b : bitmap) (start i : Z) (value : bool)
  : result bitmap :=
  match n with
  | O => Ret b
  | S n' =>
      b' <- bitmap_set b (wrap (start + i)) value ;;
      set_multiple_loop n' b' start (i + 1) value
  end.

Definition bitmap_set_multiple (b : bitmap) (start cnt : Z) (value : bool)
  : result bitmap :=
  _ <- ASSERT (start <=? bit_cnt b) ;;
  _ <- ASSERT (wrap (start + cnt) <=? bit_cnt b) ;;
  set_multiple_loop (Z.to_nat cnt) b start 0 value.

Definition bitmap_set_all (b : bitmap) (value : bool) : result bitmap :=
  bitmap_set_multiple b 0 (bitmap_size b) value.

(** [for (i = 0; i < cnt; i++) if (bitmap_test (b, start + i) == value)
    value_cnt++;] *)
Fixpoint count_loop (n : nat) (b : bitmap) (start i : Z) (value : bool)
  (value_cnt : Z) : result Z :=
  match n with
  | O => Ret value_cnt
  | S n' =>
      t <- bitmap_test b (wrap (start + i)) ;;
      count_loop n' b start (i + 1) value
        (if eqb t value then wrap (value_cnt + 1) else value_cnt)
  end.

Definition bitmap_count (b : bitmap) (start cnt : Z) (value : bool) : result Z :=
  _ <- ASSERT (start <=? bit_cnt b) ;;
  _ <- ASSERT (wrap (start + cnt) <=? bit_cnt b) ;;
  count_loop (Z.to_nat cnt) b start 0 value 0.

(** [for (i = 0; i < cnt; i++) if (bitmap_test (b, start + i) == value)
    return true;] *)
Fixpoint contains_loop (n : nat) (b : bitmap) (start i : Z) (value : bool)
  : result bool :=
  match n with
  | O => Ret false
  | S n' =>
      t <- bitmap_test b (wrap (start + i)) ;;
      if eqb t value then Ret true
      else contains_loop n' b start (i + 1) value
  end.

Definition bitmap_contains (b : bitmap) (start cnt : Z) (value : bool)
  : result bool :=
  _ <- ASSERT (start <=? bit_cnt b) ;;
  _ <- ASSERT (wrap (start + cnt) <=? bit_cnt b) ;;
  contains_loop (Z.to_nat cnt) b start 0 value.

Definition bitmap_any (b : bitmap) (start cnt : Z) : result bool :=
  bitmap_contains b start cnt true.

Definition bitmap_none (b : bitmap) (start cnt : Z) : result bool :=
  c <- bitmap_contains b start cnt true ;; Ret (negb c).

Definition bitmap_all (b : bitmap) (start cnt : Z) : result bool :=
  c <- bitmap_contains b start cnt false ;; Ret (negb c).

(** ** The region scanner *)

(** Modelled from the spec: [BITMAP_ERROR] is defined in bitmap.h, which is
    not part of the sources at hand; the spec asks for "the maximum
    representable index value" as the NOT_FOUND sentinel. *)
Definition BITMAP_ERROR : Z := SIZE_MAX.

(** The function-local statics of [bitmap_scan]. *)
Record statics : Type := mk_statics {
  latest : Z;
  check_cnt : Z;
  check_size : Z
}.

(** Their values at boot. *)
Definition statics_init : statics := mk_statics 0 0 0.

Definition wf_statics (st : statics) : Prop :=
  is_size (latest st) /\ is_size (check_cnt st) /\ is_size (check_size st).

Definition set_latest (st : statics) (i : Z) : statics :=
  mk_statics i (check_cnt st) (check_size st).

(** Strategy codes held by the global [pallocator]. *)
Definition FIRST_FIT : Z := 0.
Definition NEXT_FIT : Z := 1.
Definition BEST_FIT : Z := 2.
Definition BUDDY_SYSTEM : Z := 3.

(** [for (i = lo; i <= hi; i++) if (!bitmap_contains (b, i, cnt, !value))
    <body>]: the loop shared by first fit and by the two passes of next
    fit.  [Some i] when the body is reached at [i], [None] when the loop
    runs to its end. *)
Fixpoint search_loop (fuel : nat) (b : bitmap) (cnt : Z) (value : bool)
  (hi i : Z) : result (option Z) :=
  match fuel with
  | O => OutOfFuel
  | S fuel' =>
      if i <=? hi then
        c <- bitmap_contains b i cnt (negb value) ;;
        if negb c then Ret (Some i)
        else search_loop fuel' b cnt value hi (wrap (i + 1))
      else Ret None
  end.

Definition first_fit (fuel : nat) (st : statics) (b : bitmap)
  (start cnt last : Z) (value : bool) : result (Z * statics) :=
  r <- search_loop fuel b cnt value last start ;;
  match r with
  | Some i => Ret (i, st)
  | None => Ret (BITMAP_ERROR, st)
  end.

Definition next_fit (fuel : nat) (st : statics) (b : bitmap)
  (start cnt last : Z) (value : bool) : result (Z * statics) :=
  r <- search_loop fuel b cnt value last (latest st) ;;
  match r with
  | Some i => Ret (i, set_latest st i)
  | None =>
      r' <- search_loop fuel b cnt value (latest st) start ;;
      match r' with
      | Some i => Ret (i, set_latest st i)
      | None => Ret (BITMAP_ERROR, st)
      end
  end.

(** Best fit: the initial value of [idx], standing for "nothing found". *)
Definition BEST_NONE : Z := 99999999.

(** [while (true) { i++; if (i == last) break;
                    if (bitmap_test (b, i) == true) break; }]
    returns the [i] at which the loop is left. *)
Fixpoint best_fit_run (fuel : nat) (b : bitmap) (last i : Z) : result Z :=
  match fuel with
  | O => OutOfFuel
  | S fuel' =>
      let i := wrap (i + 1) in
      if i =? last then Ret i
      else
        t <- bitmap_test b i ;;
        if t then Ret i else best_fit_run fuel' b last i
  end.

(** The outer [while (true)] of best fit, over [i], [idx] and [size]
    ([temp_i] and [temp_size] are written before they are read). *)
Fixpoint best_fit_loop (fuel : nat) (b : bitmap) (cnt last : Z)
  (i idx size : Z) : result Z :=
  match fuel with
  | O => OutOfFuel
  | S fuel' =>
      if i >=? last then
        if idx =? BEST_NONE then Ret BITMAP_ERROR else Ret idx
      else
        t <- bitmap_test b i ;;
        if eqb t false then
          let temp_i := i in
          i <- best_fit_run fuel' b last i ;;
          temp_size <- bitmap_count b temp_i (wrap (wrap (i - 1) - temp_i)) false ;;
          if cnt <=? temp_size then
            if size =? 0 then
              best_fit_loop fuel' b cnt last i temp_i temp_size
            else if wrap (size - cnt) >? wrap (temp_size - cnt) then
              best_fit_loop fuel' b cnt last i temp_i temp_size
            else
              best_fit_loop fuel' b cnt last i idx size
          else
            best_fit_loop fuel' b cnt last i idx size
        else
          best_fit_loop fuel' b cnt last (wrap (i + 1)) idx size
  end.

Definition best_fit (fuel : nat) (st : statics) (b : bitmap)
  (start cnt last : Z) : result (Z * statics) :=
  r <- best_fit_loop fuel b cnt last start BEST_NONE 0 ;;
  Ret (r, st).

(** Buddy system: the local [max]. *)
Definition buddy_max : Z := 512.

(** [while (true) { if (j >= max + check_size) return BITMAP_ERROR;
                    if (bitmap_test (b, j) == true) offset++; else break;
                    j++; }]
    [None] stands for the [return], [Some offset] for the [break]. *)
Fixpoint buddy_measure (fuel : nat) (b : bitmap) (chk_size : Z)
  (j offset : Z) : result (option Z) :=
  match fuel with
  | O => OutOfFuel
  | S fuel' =>
      if j >=? wrap (buddy_max + chk_size) then Ret None
      else
        t <- bitmap_test b j ;;
        if t then buddy_measure fuel' b chk_size (wrap (j + 1)) (wrap (offset + 1))
        else Ret (Some offset)
  end.

(** The [if (offset > 256) ... else if (offset > 128) ...] ladder;
    [None] stands for the [return BITMAP_ERROR] of its first rung. *)
Definition buddy_round (offset : Z) : option Z :=
  if offset >? 256 then None
  else if offset >? 128 then Some 256
  else if offset >? 64 then Some 128
  else if offset >? 32 then Some 64
  else if offset >? 16 then Some 32
  else if offset >? 8 then Some 16
  else if offset >? 4 then Some 8
  else if offset >? 2 then Some 4
  else if offset >? 1 then Some 2
  else Some 1.

(** The inner [while (true)] of the buddy system, over [i] and [offset]. *)
Fixpoint buddy_walk (fuel : nat) (b : bitmap) (cnt : Z) (value : bool)
  (chk_size bound : Z) (i offset : Z) : result Z :=
  match fuel with
  | O => OutOfFuel
  | S fuel' =>
      if i >=? wrap (buddy_max + chk_size) then Ret BITMAP_ERROR
      else
        t <- bitmap_test b i ;;
        if t then
          m <- buddy_measure fuel' b chk_size i offset ;;
          match m with
          | None => Ret BITMAP_ERROR
          | Some offset =>
              match buddy_round offset with
              | None => Ret BITMAP_ERROR
              | Some offset =>
                  if offset >? wrap (bound * 2) then
                    buddy_walk fuel' b cnt value chk_size bound
                      (wrap (i + offset)) offset
                  else
                    buddy_walk fuel' b cnt value chk_size bound
                      (wrap (i + wrap (bound * 2))) offset
              end
          end
        else
          if negb (bound =? 0) then
            c <- bitmap_contains b i (wrap (bound * 2)) (negb value) ;;
            if negb c then Ret i
            else buddy_walk fuel' b cnt value chk_size bound
                   (wrap (i + wrap (bound * 2))) offset
          else
            t' <- bitmap_test b i ;;
            if eqb t' false then Ret i
            else buddy_walk fuel' b cnt value chk_size bound
                   (wrap (i + 1)) offset
  end.

(** The outer [while (true) { bound = bound / 2; if (cnt > bound) ... }];
    the inner loop is left by [return] only. *)
Fixpoint buddy_bound (fuel : nat) (b : bitmap) (cnt : Z) (value : bool)
  (chk_size bound : Z) (i : Z) : result Z :=
  match fuel with
  | O => OutOfFuel
  | S fuel' =>
      let bound := bound / 2 in
      if cnt >? bound then buddy_walk fuel' b cnt value chk_size bound i 0
      else buddy_bound fuel' b cnt value chk_size bound i
  end.

(** [if (check_cnt < 3) { i = 0; check_cnt++; } else { i = check_size; }]:
    the index the walk starts from, and the statics afterwards. *)
Definition buddy_start (st : statics) : Z * statics :=
  if check_cnt st <? 3 then
    (0, mk_statics (latest st) (wrap (check_cnt st + 1)) (check_size st))
  else
    (check_size st, st).

Definition buddy_system (fuel : nat) (st : statics) (b : bitmap)
  (cnt : Z) (value : bool) : result (Z * statics) :=
  let '(i, st) := buddy_start st in
  if cnt >? buddy_max then Ret (BITMAP_ERROR, st)
  else
    r <- buddy_bound fuel b cnt value (check_size st) 512 i ;;
    Ret (r, st).

(** [if (check_cnt < 3) check_size = check_size + cnt;] *)
Definition accumulate (st : statics) (cnt : Z) : statics :=
  if check_cnt st <? 3 then
    mk_statics (latest st) (check_cnt st) (wrap (check_size st + cnt))
  else st.

Definition bitmap_scan (fuel : nat) (pallocator : Z) (st : statics)
  (b : bitmap) (start cnt : Z) (value : bool) : result (Z * statics) :=
  _ <- ASSERT (start <=? bit_cnt b) ;;
  let st := accumulate st cnt in
  if cnt <=? bit_cnt b then
    let last := wrap (bit_cnt b - cnt) in
    if pallocator =? 0 then first_fit fuel st b start cnt last value
    else if pallocator =? 1 then next_fit fuel st b start cnt last value
    else if pallocator =? 2 then best_fit fuel st b start cnt last
    else if pallocator =? 3 then buddy_system fuel st b cnt value
    else Ret (BITMAP_ERROR, st)
  else Ret (BITMAP_ERROR, st).

Definition bitmap_scan_and_flip (fuel : nat) (pallocator : Z) (st : statics)
  (b : bitmap) (start cnt : Z) (value : bool)
  : result (Z * statics * bitmap) :=
  r <- bitmap_scan fuel pallocator st b start cnt value ;;
  let '(idx, st) := r in
  if negb (idx =? BITMAP_ERROR) then
    b' <- bitmap_set_multiple b idx cnt (negb value) ;;
    Ret (idx, st, b')
  else Ret (idx, st, b).

(** ** Bitmaps used in the examples *)

(** 20 bits, free (false) only in [5,10). *)
Definition bm_free_5_10 : bitmap := mk_bitmap 20 [1047583].

(** 20 bits, free in [0,4) and in [10,12) only. *)
Definition bm_runs_4_2 : bitmap := mk_bitmap 20 [1045488].

(** 10 bits, the first nine of them occupied. *)
Definition bm_last_free : bitmap := mk_bitmap 10 [511].

(** 16 bits, occupied at 0, 1, 2 and 4. *)
Definition bm_two_runs : bitmap := mk_bitmap 16 [23].

(** 4 bits, all occupied. *)
Definition bm_full4 : bitmap := mk_bitmap 4 [15].

(** 8 bits, all free. *)
Definition bm_empty8 : bitmap := mk_bitmap 8 [0].

(** ** Notions used to state the properties *)

(** The bits of a bitmap, lowest index first. *)
Definition bits_of (b : bitmap) : list bool :=
  map (fun i => bit_at b (Z.of_nat i)) (seq 0 (Z.to_nat (bit_cnt b))).

(** The [cnt] bits from index [i] on all have value [v]. *)
Definition run_of (b : bitmap) (i cnt : Z) (v : bool) : Prop :=
  forall k, i <= k < i + cnt -> bit_at b k = v.

(** One invocation of [bitmap_scan]: the strategy in force and the
    arguments. *)
Record call : Type := mk_call {
  c_pal : Z;
  c_bitmap : bitmap;
  c_start : Z;
  c_cnt : Z;
  c_value : bool
}.

(** A sequence of invocations, each returning before the next starts;
    the statics go from one call to the next. *)
Fixpoint scan_all (fuel : nat) (st : statics) (cs : list call)
  : result statics :=
  match cs with
  | [] => Ret st
  | c :: cs' =>
      r <- bitmap_scan fuel (c_pal c) st (c_bitmap c) (c_start c) (c_cnt c)
             (c_value c) ;;
      scan_all fuel (snd r) cs'
  end.

(** A buddy invocation that reaches the strategy dispatch. *)
Definition counted (c : call) : bool :=
  (c_pal c =? BUDDY_SYSTEM) && (c_cnt c <=? bit_cnt (c_bitmap c)).

(** Number of counted buddy invocations after [cs], starting from [n],
    as the code keeps it: never beyond 3. *)
Fixpoint buddy_calls (n : Z) (cs : list call) : Z :=
  match cs with
  | [] => n
  | c :: cs' =>
      buddy_calls (if (n <? 3) && counted c then n + 1 else n) cs'
  end.

(** Sum of the [cnt] arguments of all the invocations made while fewer
    than three counted buddy invocations have happened ([n] of them so
    far). *)
Fixpoint warmup_sum (n : Z) (cs : list call) : Z :=
  match cs with
  | [] => 0
  | c :: cs' =>
      if n <? 3 then
        c_cnt c + warmup_sum (if counted c then n + 1 else n) cs'
      else 0
  end.

(** Sum of the [cnt] arguments of the first three buddy-strategy
    invocations only ([n] of them so far). *)
Fixpoint buddy_sum (n : Z) (cs : list call) : Z :=
  match cs with
  | [] => 0
  | c :: cs' =>
      if n <? 3 then
        if c_pal c =? BUDDY_SYSTEM then c_cnt c + buddy_sum (n + 1) cs'
        else buddy_sum n cs'
      else 0
  end.

(** A first-fit scan for 5 units followed by three buddy scans for 1. *)
Definition calls_mixed : list call :=
  [ mk_call FIRST_FIT bm_empty8 0 5 false;
    mk_call BUDDY_SYSTEM bm_empty8 0 1 false;
    mk_call BUDDY_SYSTEM bm_empty8 0 1 false;
    mk_call BUDDY_SYSTEM bm_empty8 0 1 false ].

(** The values [bound] goes through in the buddy system. *)
Definition bound_ladder (bound : Z) : Prop :=
  bound = 512 \/ bound = 256 \/ bound = 128 \/ bound = 64 \/ bound = 32 \/
  bound = 16 \/ bound = 8 \/ bound = 4 \/ bound = 2 \/ bound = 1 \/ bound = 0.

(** [approx r r']: [r'] is the answer [r], or [r] ran out of fuel. *)
Definition approx {A : Type} (r r' : result A) : Prop :=
  r = OutOfFuel \/ r = r'.

(** Number of bits of value [v] among the [n] bits from index [i] on. *)
Fixpoint count_bits (n : nat) (b : bitmap) (i : Z) (v : bool) : Z :=
  match n with
  | O => 0
  | S n' => (if eqb (bit_at b i) v then 1 else 0) + count_bits n' b (i + 1) v
  end.

(** The invariant of the best-fit loop on [idx]: nothing yet, or the
    start of more than [cnt] false bits that end at or before [last]. *)
Definition best_candidate (b : bitmap) (cnt last idx : Z) : Prop :=
  idx = BEST_NONE \/
  (0 <= idx /\ idx + cnt + 1 <= last /\ run_of b idx (cnt + 1) false).

(** [last_mask]: [last_bits] is an [int] holding [bit_cnt % ELEM_BITS];
    [(elem_type) -1] is the element with every bit set. *)
Definition last_mask (b : bitmap) : Z :=
  let last_bits := bit_cnt b mod ELEM_BITS in
  if negb (last_bits =? 0) then wrap (Z.shiftl 1 last_bits - 1)
  else wrap (-1).

(** * Properties *)

(** ** Machine integers and results *)

Lemma SIZE_MOD_val : SIZE_MOD = 4294967296.
Proof. reflexivity. Qed.

Lemma SIZE_MAX_val : SIZE_MAX = 4294967295.
Proof. reflexivity. Qed.

Lemma wrap_small z : 0 <= z <= SIZE_MAX -> wrap z = z.
Proof.
  unfold wrap. rewrite SIZE_MAX_val, SIZE_MOD_val. intros H.
  apply Z.mod_small. lia.
Qed.

Lemma wrap_range z : 0 <= wrap z <= SIZE_MAX.
Proof.
  unfold wrap. rewrite SIZE_MAX_val, SIZE_MOD_val.
  pose proof (Z.mod_pos_bound z 4294967296). lia.
Qed.

Lemma bind_Ret_inv {A B} (c : result A) (k : A -> result B) (r : B) :
  bind c k = Ret r -> exists a, c = Ret a /\ k a = Ret r.
Proof. destruct c; simpl; intros H; try discriminate. eauto. Qed.

Lemma ASSERT_true (c : bool) : c = true -> ASSERT c = Ret tt.
Proof. intros ->. reflexivity. Qed.

Lemma ASSERT_false (c : bool) : c = false -> ASSERT c = Panic.
Proof. intros ->. reflexivity. Qed.

Lemma ASSERT_Ret_inv (c : bool) (u : unit) : ASSERT c = Ret u -> c = true.
Proof. destruct c; simpl; intros H; [reflexivity | discriminate]. Qed.

(** ** The example bitmaps, bit by bit *)

Example bm_free_5_10_bits :
  bits_of bm_free_5_10 = repeat true 5 ++ repeat false 5 ++ repeat true 10.
Proof. reflexivity. Qed.

Example bm_runs_4_2_bits :
  bits_of bm_runs_4_2 =
    repeat false 4 ++ repeat true 6 ++ repeat false 2 ++ repeat true 8.
Proof. reflexivity. Qed.

Example bm_last_free_bits :
  bits_of bm_last_free = repeat true 9 ++ [false].
Proof. reflexivity. Qed.

Example bm_two_runs_bits :
  bits_of bm_two_runs =
    repeat true 3 ++ [false] ++ [true] ++ repeat false 11.
Proof. reflexivity. Qed.

Example bm_full4_bits : bits_of bm_full4 = repeat true 4.
Proof. reflexivity. Qed.

Example bm_empty8_bits : bits_of bm_empty8 = repeat false 8.
Proof. reflexivity. Qed.

(** ** Single bits *)

Lemma bit_mask_pow2 idx : bit_mask idx = 2 ^ (idx mod ELEM_BITS).
Proof.
  unfold bit_mask, ELEM_BITS.
  pose proof (Z.mod_pos_bound idx 32 ltac:(lia)) as Hm.
  rewrite Z.shiftl_1_l. apply wrap_small. rewrite SIZE_MAX_val.
  split; [apply Z.pow_nonneg; lia |].
  assert (2 ^ (idx mod 32) < 2 ^ 32) by (apply Z.pow_lt_mono_r; lia).
  lia.
Qed.

Lemma land_pow2 w m :
  0 <= m -> Z.land w (2 ^ m) = if Z.testbit w m then 2 ^ m else 0.
Proof.
  intros Hm. apply Z.bits_inj'. intros n Hn.
  rewrite Z.land_spec, Z.pow2_bits_eqb by lia.
  destruct (Z.eqb_spec m n) as [-> | Hne].
  - destruct (Z.testbit w n); simpl.
    + rewrite Z.pow2_bits_eqb, Z.eqb_refl by lia. reflexivity.
    + rewrite Z.bits_0. reflexivity.
  - rewrite andb_false_r. destruct (Z.testbit w m).
    + rewrite Z.pow2_bits_eqb by lia.
      symmetry. apply Z.eqb_neq. exact Hne.
    + rewrite Z.bits_0. reflexivity.
Qed.

Lemma bit_at_testbit b idx :
  bit_at b idx = Z.testbit (elem_at b (elem_idx idx)) (idx mod ELEM_BITS).
Proof.
  unfold bit_at. rewrite bit_mask_pow2.
  pose proof (Z.mod_pos_bound idx ELEM_BITS ltac:(unfold ELEM_BITS; lia)) as Hm.
  rewrite land_pow2 by lia.
  destruct (Z.testbit _ _); simpl.
  - assert (0 < 2 ^ (idx mod ELEM_BITS)) by (apply Z.pow_pos_nonneg; lia).
    destruct (Z.eqb_spec (2 ^ (idx mod ELEM_BITS)) 0); [lia | reflexivity].
  - reflexivity.
Qed.

Lemma elem_at_store_eq b idx w :
  0 <= idx < Z.of_nat (length (bits b)) ->
  elem_at (elem_store b idx w) idx = w.
Proof.
  intros H. unfold elem_at, elem_store. simpl.
  rewrite list_lookup_insert_eq by lia. reflexivity.
Qed.

Lemma elem_at_store_ne b idx idx' w :
  0 <= idx -> 0 <= idx' -> idx <> idx' ->
  elem_at (elem_store b idx w) idx' = elem_at b idx'.
Proof.
  intros H H' Hne. unfold elem_at, elem_store. simpl.
  rewrite list_lookup_insert_ne by lia. reflexivity.
Qed.

Lemma elem_idx_range b idx :
  wf_bitmap b -> 0 <= idx < bit_cnt b ->
  0 <= elem_idx idx < Z.of_nat (length (bits b)).
Proof.
  intros [_ Hlen] H. unfold elem_idx, ELEM_BITS in *. split.
  - apply Z.div_pos; lia.
  - apply Z.div_lt_upper_bound; lia.
Qed.

Lemma same_bit_position j k :
  elem_idx j = elem_idx k -> j mod ELEM_BITS = k mod ELEM_BITS -> j = k.
Proof.
  unfold elem_idx, ELEM_BITS. intros Hd Hm.
  rewrite (Z.div_mod j 32), (Z.div_mod k 32) by lia. congruence.
Qed.

Lemma bit_at_mark b j k :
  wf_bitmap b -> 0 <= j < bit_cnt b -> 0 <= k ->
  bit_at (bitmap_mark b j) k = if k =? j then true else bit_at b k.
Proof.
  intros Hwf Hj Hk. pose proof (elem_idx_range b j Hwf Hj) as Hr.
  rewrite !bit_at_testbit. unfold bitmap_mark.
  pose proof (Z.mod_pos_bound j ELEM_BITS ltac:(unfold ELEM_BITS; lia)) as Hmj.
  pose proof (Z.mod_pos_bound k ELEM_BITS ltac:(unfold ELEM_BITS; lia)) as Hmk.
  destruct (Z.eq_dec (elem_idx j) (elem_idx k)) as [He | He].
  - rewrite <- He, elem_at_store_eq by lia.
    rewrite Z.lor_spec, bit_mask_pow2, Z.pow2_bits_eqb by lia.
    destruct (Z.eqb_spec k j) as [-> | Hne].
    + rewrite Z.eqb_refl, orb_true_r. reflexivity.
    + destruct (Z.eqb_spec (j mod ELEM_BITS) (k mod ELEM_BITS)) as [Hm | Hm].
      * exfalso. apply Hne. symmetry. apply same_bit_position; assumption.
      * rewrite orb_false_r. reflexivity.
  - rewrite elem_at_store_ne.
    + destruct (Z.eqb_spec k j) as [-> | Hne]; [congruence | reflexivity].
    + lia.
    + unfold elem_idx, ELEM_BITS. apply Z.div_pos; lia.
    + exact He.
Qed.

Lemma bit_at_reset b j k :
  wf_bitmap b -> 0 <= j < bit_cnt b -> 0 <= k ->
  bit_at (bitmap_reset b j) k = if k =? j then false else bit_at b k.
Proof.
  intros Hwf Hj Hk. pose proof (elem_idx_range b j Hwf Hj) as Hr.
  rewrite !bit_at_testbit. unfold bitmap_reset.
  pose proof (Z.mod_pos_bound j ELEM_BITS ltac:(unfold ELEM_BITS; lia)) as Hmj.
  pose proof (Z.mod_pos_bound k ELEM_BITS ltac:(unfold ELEM_BITS; lia)) as Hmk.
  destruct (Z.eq_dec (elem_idx j) (elem_idx k)) as [He | He].
  - rewrite <- He, elem_at_store_eq by lia.
    rewrite Z.land_spec, Z.lxor_spec, bit_mask_pow2, Z.pow2_bits_eqb by lia.
    replace ELEM_MAX with (Z.ones ELEM_BITS) by reflexivity.
    rewrite Z.ones_spec_low by lia.
    destruct (Z.eqb_spec k j) as [-> | Hne].
    + rewrite Z.eqb_refl. simpl. apply andb_false_r.
    + destruct (Z.eqb_spec (j mod ELEM_BITS) (k mod ELEM_BITS)) as [Hm | Hm].
      * exfalso. apply Hne. symmetry. apply same_bit_position; assumption.
      * simpl. apply andb_true_r.
  - rewrite elem_at_store_ne.
    + destruct (Z.eqb_spec k j) as [-> | Hne]; [congruence | reflexivity].
    + lia.
    + unfold elem_idx, ELEM_BITS. apply Z.div_pos; lia.
    + exact He.
Qed.

Lemma wf_bitmap_store b idx w : wf_bitmap b -> wf_bitmap (elem_store b idx w).
Proof.
  unfold wf_bitmap, elem_store. simpl. rewrite length_insert. tauto.
Qed.

Lemma bitmap_test_in b idx :
  idx < bit_cnt b -> bitmap_test b idx = Ret (bit_at b idx).
Proof.
  intros H. unfold bitmap_test.
  rewrite ASSERT_true by (apply Z.ltb_lt; lia). reflexivity.
Qed.

Lemma bitmap_test_out b idx : bit_cnt b <= idx -> bitmap_test b idx = Panic.
Proof.
  intros H. unfold bitmap_test.
  rewrite ASSERT_false by (apply Z.ltb_ge; lia). reflexivity.
Qed.

Lemma bitmap_test_Ret b idx t :
  bitmap_test b idx = Ret t -> idx < bit_cnt b /\ t = bit_at b idx.
Proof.
  intros H. destruct (Z.lt_ge_cases idx (bit_cnt b)) as [Hlt | Hge].
  - rewrite bitmap_test_in in H by lia. split; [lia | congruence].
  - rewrite bitmap_test_out in H by lia. discriminate.
Qed.

Lemma bitmap_set_spec b idx v :
  wf_bitmap b -> 0 <= idx < bit_cnt b ->
  exists b', bitmap_set b idx v = Ret b' /\ wf_bitmap b' /\
    bit_cnt b' = bit_cnt b /\
    forall k, 0 <= k -> bit_at b' k = if k =? idx then v else bit_at b k.
Proof.
  intros Hwf Hidx. unfold bitmap_set.
  rewrite ASSERT_true by (apply Z.ltb_lt; lia). simpl.
  eexists. split; [reflexivity |]. destruct v.
  - split; [apply wf_bitmap_store; assumption |]. split; [reflexivity |].
    intros k Hk. apply bit_at_mark; assumption.
  - split; [apply wf_bitmap_store; assumption |]. split; [reflexivity |].
    intros k Hk. apply bit_at_reset; assumption.
Qed.

(** ** Ranges of bits *)

Lemma set_multiple_loop_spec (n : nat) : forall b start i v,
  wf_bitmap b -> 0 <= start -> 0 <= i ->
  start + i + Z.of_nat n <= bit_cnt b ->
  exists b', set_multiple_loop n b start i v = Ret b' /\ wf_bitmap b' /\
    bit_cnt b' = bit_cnt b /\
    forall k, 0 <= k ->
      bit_at b' k =
        if (start + i <=? k) && (k <? start + i + Z.of_nat n) then v
        else bit_at b k.
Proof.
  induction n as [| n IH]; intros b start i v Hwf Hs Hi Hle.
  - exists b. simpl. repeat split; try assumption; try apply Hwf.
    intros k Hk. destruct (Z.leb_spec (start + i) k), (Z.ltb_spec k (start + i + Z.of_nat 0));
      simpl; try reflexivity; lia.
  - simpl. pose proof Hwf as [[? ?] _].
    rewrite wrap_small by lia.
    destruct (bitmap_set_spec b (start + i) v Hwf ltac:(lia))
      as (b1 & -> & Hwf1 & Hcnt1 & Hbits1).
    simpl.
    destruct (IH b1 start (i + 1) v Hwf1 Hs ltac:(lia) ltac:(lia))
      as (b2 & -> & Hwf2 & Hcnt2 & Hbits2).
    exists b2. repeat split; try apply Hwf2; try congruence.
    intros k Hk. rewrite Hbits2, Hbits1 by assumption.
    destruct (Z.leb_spec (start + (i + 1)) k),
      (Z.ltb_spec k (start + (i + 1) + Z.of_nat n)),
      (Z.leb_spec (start + i) k),
      (Z.ltb_spec k (start + i + Z.of_nat (S n))),
      (Z.eqb_spec k (start + i)); simpl; try reflexivity; lia.
Qed.

Lemma bitmap_set_multiple_spec b start cnt v :
  wf_bitmap b -> 0 <= start -> 0 <= cnt -> start + cnt <= bit_cnt b ->
  exists b', bitmap_set_multiple b start cnt v = Ret b' /\ wf_bitmap b' /\
    bit_cnt b' = bit_cnt b /\
    forall k, 0 <= k ->
      bit_at b' k =
        if (start <=? k) && (k <? start + cnt) then v else bit_at b k.
Proof.
  intros Hwf Hs Hc Hle. pose proof Hwf as [[? ?] _].
  unfold bitmap_set_multiple.
  rewrite ASSERT_true by (apply Z.leb_le; lia). simpl.
  rewrite wrap_small by lia.
  rewrite ASSERT_true by (apply Z.leb_le; lia). simpl.
  destruct (set_multiple_loop_spec (Z.to_nat cnt) b start 0 v Hwf Hs ltac:(lia)
              ltac:(lia)) as (b' & Heq & Hwf' & Hcnt & Hbits).
  exists b'. repeat split; try apply Hwf'; try assumption.
  intros k Hk. rewrite Hbits by assumption.
  rewrite Z2Nat.id, Z.add_0_r by lia. reflexivity.
Qed.

(** A [contains_loop] that answers [false] has tested every bit. *)
Lemma contains_loop_false (n : nat) : forall b start i v,
  contains_loop n b start i v = Ret false ->
  forall k, i <= k < i + Z.of_nat n ->
    bitmap_test b (wrap (start + k)) = Ret (negb v).
Proof.
  induction n as [| n IH]; intros b start i v H k Hk; [lia |].
  simpl in H. apply bind_Ret_inv in H as (t & Ht & H).
  destruct (eqb_spec t v) as [-> | Hne]; [discriminate |].
  destruct (Z.eq_dec k i) as [-> | Hki].
  - rewrite Ht. f_equal. destruct t, v; simpl; congruence.
  - apply (IH b start (i + 1) v H). lia.
Qed.

(** A [contains_loop] that answers [true] has found a bit. *)
Lemma contains_loop_true (n : nat) : forall b start i v,
  contains_loop n b start i v = Ret true ->
  exists k, i <= k < i + Z.of_nat n /\
    bitmap_test b (wrap (start + k)) = Ret v.
Proof.
  induction n as [| n IH]; intros b start i v H; [discriminate |].
  simpl in H. apply bind_Ret_inv in H as (t & Ht & H).
  destruct (eqb_spec t v) as [-> | Hne].
  - exists i. split; [lia | assumption].
  - destruct (IH b start (i + 1) v H) as (k & Hk & Hkt).
    exists k. split; [lia | assumption].
Qed.

Lemma contains_loop_total (n : nat) : forall b start i v,
  0 <= start -> 0 <= i -> start + i + Z.of_nat n <= bit_cnt b ->
  bit_cnt b <= SIZE_MAX ->
  exists r, contains_loop n b start i v = Ret r.
Proof.
  induction n as [| n IH]; intros b start i v Hs Hi Hle Hmax; simpl.
  - eauto.
  - rewrite wrap_small by lia. rewrite bitmap_test_in by lia. simpl.
    destruct (eqb _ v); [eauto |]. apply IH; lia.
Qed.

Lemma bitmap_contains_false b start cnt v :
  wf_bitmap b -> 0 <= start -> 0 <= cnt ->
  bitmap_contains b start cnt v = Ret false ->
  start + cnt <= bit_cnt b /\ run_of b start cnt (negb v).
Proof.
  intros [[H0 Hmax] _] Hs Hc H. unfold bitmap_contains in H.
  apply bind_Ret_inv in H as (u & Hsb & H).
  apply ASSERT_Ret_inv, Z.leb_le in Hsb.
  apply bind_Ret_inv in H as (_ & _ & H).
  pose proof (contains_loop_false _ _ _ _ _ H) as Hall.
  rewrite Z2Nat.id in Hall by lia.
  assert (Hle : start + cnt <= bit_cnt b).
  { destruct (Z.le_gt_cases (start + cnt) (bit_cnt b)) as [? | Hgt]; [assumption |].
    specialize (Hall (bit_cnt b - start) ltac:(lia)).
    replace (start + (bit_cnt b - start)) with (bit_cnt b) in Hall by lia.
    rewrite wrap_small, bitmap_test_out in Hall by lia. discriminate. }
  split; [assumption |].
  intros k Hk. specialize (Hall (k - start) ltac:(lia)).
  replace (start + (k - start)) with k in Hall by lia.
  rewrite wrap_small in Hall by lia.
  apply bitmap_test_Ret in Hall as [_ ->]. reflexivity.
Qed.

Lemma bitmap_contains_in_range b start cnt v :
  wf_bitmap b -> 0 <= start -> 0 <= cnt -> start + cnt <= bit_cnt b ->
  exists r, bitmap_contains b start cnt v = Ret r /\
    (r = false <-> run_of b start cnt (negb v)).
Proof.
  intros Hwf Hs Hc Hle. pose proof Hwf as [[H0 Hmax] _].
  destruct (contains_loop_total (Z.to_nat cnt) b start 0 v Hs ltac:(lia)
              ltac:(lia) Hmax) as [r Hr].
  assert (Heq : bitmap_contains b start cnt v = Ret r).
  { unfold bitmap_contains.
    rewrite ASSERT_true by (apply Z.leb_le; lia). simpl.
    rewrite wrap_small by lia.
    rewrite ASSERT_true by (apply Z.leb_le; lia). simpl. exact Hr. }
  exists r. split; [exact Heq |]. split.
  - intros ->. apply (bitmap_contains_false b start cnt v); assumption.
  - intros Hrun. destruct r; [exfalso | reflexivity].
    apply contains_loop_true in Hr as (k & Hk & Ht).
    rewrite Z2Nat.id in Hk by lia.
    rewrite wrap_small in Ht by lia.
    apply bitmap_test_Ret in Ht as [_ Ht].
    rewrite (Hrun (start + k)) in Ht by lia.
    destruct v; discriminate.
Qed.

(** ** The search loop of first fit and next fit *)

Lemma search_loop_found (fuel : nat) : forall b cnt value hi i j,
  0 <= i ->
  search_loop fuel b cnt value hi i = Ret (Some j) ->
  0 <= j /\ bitmap_contains b j cnt (negb value) = Ret false.
Proof.
  induction fuel as [| fuel IH]; intros b cnt value hi i j Hi H;
    [discriminate |].
  simpl in H. destruct (i <=? hi); [| discriminate].
  apply bind_Ret_inv in H as (c & Hc & H). destruct c; simpl in H.
  - apply IH in H; [assumption | apply wrap_range].
  - injection H as <-. split; assumption.
Qed.

Lemma search_loop_spec (fuel : nat) : forall b cnt value hi i,
  wf_bitmap b -> 0 <= cnt -> 0 <= i ->
  hi + cnt <= bit_cnt b -> hi < SIZE_MAX ->
  (Z.to_nat (hi + 1 - i) < fuel)%nat ->
  exists r, search_loop fuel b cnt value hi i = Ret r /\
    match r with
    | Some j => i <= j <= hi /\ run_of b j cnt value /\
                forall k, i <= k < j -> ~ run_of b k cnt value
    | None => forall k, i <= k <= hi -> ~ run_of b k cnt value
    end.
Proof.
  induction fuel as [| fuel IH]; intros b cnt value hi i Hwf Hc Hi Hhi Hmax Hf;
    [lia |].
  simpl. destruct (Z.leb_spec i hi) as [Hle | Hgt].
  - destruct (bitmap_contains_in_range b i cnt (negb value) Hwf Hi Hc ltac:(lia))
      as (c & -> & Hiff).
    rewrite negb_involutive in Hiff. simpl. destruct c; simpl.
    + rewrite wrap_small by lia.
      destruct (IH b cnt value hi (i + 1) Hwf Hc ltac:(lia) Hhi Hmax ltac:(lia))
        as (r & -> & Hr).
      exists r. split; [reflexivity |].
      assert (Hno : ~ run_of b i cnt value).
      { intros Hrun. apply Hiff in Hrun. discriminate. }
      destruct r as [j |].
      * destruct Hr as (Hj & Hrun & Hmin). repeat split; try lia; try assumption.
        intros k Hk. destruct (Z.eq_dec k i) as [-> | Hne]; [assumption |].
        apply Hmin. lia.
      * intros k Hk. destruct (Z.eq_dec k i) as [-> | Hne]; [assumption |].
        apply Hr. lia.
    + exists (Some i). split; [reflexivity |].
      repeat split; try lia.
      apply Hiff. reflexivity.
  - exists None. split; [reflexivity |]. intros k Hk. lia.
Qed.

Lemma accumulate_zero st : wf_statics st -> accumulate st 0 = st.
Proof.
  intros (_ & _ & Hsz). unfold accumulate, is_size in *.
  destruct (check_cnt st <? 3); [| reflexivity].
  rewrite Z.add_0_r, wrap_small by assumption. destruct st; reflexivity.
Qed.

(** ** Empty ranges *)

Lemma bitmap_contains_empty b start v :
  wf_bitmap b -> 0 <= start <= bit_cnt b ->
  bitmap_contains b start 0 v = Ret false.
Proof.
  intros [[H0 Hmax] _] Hs. unfold bitmap_contains.
  rewrite ASSERT_true by (apply Z.leb_le; lia). simpl.
  rewrite Z.add_0_r, wrap_small by lia.
  rewrite ASSERT_true by (apply Z.leb_le; lia). reflexivity.
Qed.

Lemma bitmap_count_empty b start v :
  wf_bitmap b -> 0 <= start <= bit_cnt b ->
  bitmap_count b start 0 v = Ret 0.
Proof.
  intros [[H0 Hmax] _] Hs. unfold bitmap_count.
  rewrite ASSERT_true by (apply Z.leb_le; lia). simpl.
  rewrite Z.add_0_r, wrap_small by lia.
  rewrite ASSERT_true by (apply Z.leb_le; lia). reflexivity.
Qed.

(** C10: on an empty range starting at [start <= N], [bitmap_contains] and
    [bitmap_any] answer false, [bitmap_none] and [bitmap_all] answer true,
    and [bitmap_count] answers 0, whatever the value looked for. *)
Theorem empty_range_predicates (b : bitmap) (start : Z) (value : bool) :
  wf_bitmap b -> 0 <= start <= bit_cnt b ->
  bitmap_contains b start 0 value = Ret false /\
  bitmap_any b start 0 = Ret false /\
  bitmap_none b start 0 = Ret true /\
  bitmap_all b start 0 = Ret true /\
  bitmap_count b start 0 value = Ret 0.
Proof.
  intros Hwf Hs. unfold bitmap_any, bitmap_none, bitmap_all.
  rewrite !bitmap_contains_empty, bitmap_count_empty by assumption.
  simpl. repeat split.
Qed.

Lemma empty_range_predicates_witness :
  bitmap_contains bm_free_5_10 7 0 true = Ret false /\
  bitmap_any bm_free_5_10 7 0 = Ret false /\
  bitmap_none bm_free_5_10 7 0 = Ret true /\
  bitmap_all bm_free_5_10 7 0 = Ret true /\
  bitmap_count bm_free_5_10 7 0 true = Ret 0.
Proof.
  apply (empty_range_predicates bm_free_5_10 7 true).
  - unfold wf_bitmap; simpl. rewrite SIZE_MAX_val. unfold ELEM_BITS. lia.
  - simpl. lia.
Defined.

(** ** First fit *)

(** C6: under first fit, with [1 <= cnt <= N] and [start <= N], the scan
    returns the smallest index [i] of [start .. N - cnt] from which [cnt]
    bits all have the value looked for, and [BITMAP_ERROR] when there is
    none; on the 20-bit bitmap free only in [5,10), [scan (0, 3, false)]
    returns 5. *)
Theorem first_fit_smallest :
  (forall (fuel : nat) (st : statics) (b : bitmap) (start cnt : Z)
          (value : bool),
     wf_bitmap b -> 0 <= start <= bit_cnt b -> 1 <= cnt <= bit_cnt b ->
     (Z.to_nat (bit_cnt b) < fuel)%nat ->
     exists r,
       bitmap_scan fuel FIRST_FIT st b start cnt value
         = Ret (r, accumulate st cnt) /\
       ((start <= r <= bit_cnt b - cnt /\ run_of b r cnt value /\
         forall k, start <= k < r -> ~ run_of b k cnt value)
        \/
        (r = BITMAP_ERROR /\
         forall k, start <= k <= bit_cnt b - cnt -> ~ run_of b k cnt value)))
  /\
  (forall st, bitmap_scan 21 FIRST_FIT st bm_free_5_10 0 3 false
              = Ret (5, accumulate st 3)).
Proof.
  split.
  - intros fuel st b start cnt value Hwf Hs Hc Hf.
    pose proof Hwf as [[H0 Hmax] _]. unfold bitmap_scan.
    rewrite ASSERT_true by (apply Z.leb_le; lia). simpl.
    destruct (Z.leb_spec cnt (bit_cnt b)) as [_ | ?]; [| lia].
    rewrite wrap_small by lia. unfold first_fit.
    destruct (search_loop_spec fuel b cnt value (bit_cnt b - cnt) start Hwf
                ltac:(lia) ltac:(lia) ltac:(lia) ltac:(lia) ltac:(lia))
      as (r & -> & Hr).
    simpl. destruct r as [j |].
    + exists j. split; [reflexivity |]. left. exact Hr.
    + exists BITMAP_ERROR. split; [reflexivity |]. right.
      split; [reflexivity | exact Hr].
  - intros st. reflexivity.
Qed.

Lemma first_fit_smallest_witness :
  exists r,
    bitmap_scan 21 FIRST_FIT statics_init bm_free_5_10 0 3 false
      = Ret (r, accumulate statics_init 3) /\
    ((0 <= r <= bit_cnt bm_free_5_10 - 3 /\ run_of bm_free_5_10 r 3 false /\
      forall k, 0 <= k < r -> ~ run_of bm_free_5_10 k 3 false)
     \/
     (r = BITMAP_ERROR /\
      forall k, 0 <= k <= bit_cnt bm_free_5_10 - 3 ->
                ~ run_of bm_free_5_10 k 3 false)).
Proof.
  apply (proj1 first_fit_smallest 21%nat statics_init bm_free_5_10 0 3 false).
  - unfold wf_bitmap; simpl. rewrite SIZE_MAX_val. unfold ELEM_BITS. lia.
  - simpl. lia.
  - simpl. lia.
  - simpl. lia.
Defined.

(** ** Scans for zero bits *)

(** X20: a scan for zero bits returns [start] under first fit (so 0 when
    [start = 0]) and the cursor [latest] under next fit when
    [latest <= N]; the statics are left as they were (the bitmap is not
    written by [bitmap_scan] at all). *)
Theorem scan_zero_returns_start (fuel : nat) (st : statics) (b : bitmap)
  (start : Z) (value : bool) :
  wf_bitmap b -> wf_statics st -> 0 <= start <= bit_cnt b -> (0 < fuel)%nat ->
  bitmap_scan fuel FIRST_FIT st b start 0 value = Ret (start, st) /\
  (latest st <= bit_cnt b ->
   bitmap_scan fuel NEXT_FIT st b start 0 value = Ret (latest st, st)).
Proof.
  intros Hwf Hst Hs Hf. pose proof Hwf as [[H0 Hmax] _].
  pose proof Hst as (Hl & _ & _). unfold is_size in Hl.
  destruct fuel as [| fuel]; [lia |].
  unfold bitmap_scan. rewrite ASSERT_true by (apply Z.leb_le; lia).
  cbn [bind]. rewrite accumulate_zero by assumption.
  destruct (Z.leb_spec 0 (bit_cnt b)) as [_ | ?]; [| lia].
  rewrite Z.sub_0_r, wrap_small by lia.
  split.
  - change (FIRST_FIT =? 0) with true. cbn iota.
    unfold first_fit. cbn [search_loop].
    destruct (Z.leb_spec start (bit_cnt b)) as [_ | ?]; [| lia].
    rewrite bitmap_contains_empty by assumption. reflexivity.
  - intros Hlat. change (NEXT_FIT =? 0) with false.
    change (NEXT_FIT =? 1) with true. cbn iota.
    unfold next_fit. cbn [search_loop].
    destruct (Z.leb_spec (latest st) (bit_cnt b)) as [_ | ?]; [| lia].
    rewrite bitmap_contains_empty by (assumption || lia).
    cbn. destruct st; reflexivity.
Qed.

Lemma scan_zero_returns_start_witness :
  bitmap_scan 1 FIRST_FIT statics_init bm_full4 1 0 false
    = Ret (1, statics_init) /\
  (latest statics_init <= bit_cnt bm_full4 ->
   bitmap_scan 1 NEXT_FIT statics_init bm_full4 1 0 false
     = Ret (latest statics_init, statics_init)).
Proof.
  apply (scan_zero_returns_start 1%nat statics_init bm_full4 1 false).
  - unfold wf_bitmap; simpl. rewrite SIZE_MAX_val. unfold ELEM_BITS. lia.
  - unfold wf_statics, is_size; simpl. rewrite SIZE_MAX_val. lia.
  - simpl. lia.
  - lia.
Defined.

(** ** The statics of the buddy system *)

Lemma wrap_add_l a c : wrap (wrap a + c) = wrap (a + c).
Proof. unfold wrap. apply Z.add_mod_idemp_l. rewrite SIZE_MOD_val. lia. Qed.

Lemma first_fit_counters fuel st b start cnt last value r st' :
  first_fit fuel st b start cnt last value = Ret (r, st') ->
  check_cnt st' = check_cnt st /\ check_size st' = check_size st.
Proof.
  unfold first_fit. intros H. apply bind_Ret_inv in H as (o & _ & H).
  destruct o; injection H as <- <-; split; reflexivity.
Qed.

Lemma next_fit_counters fuel st b start cnt last value r st' :
  next_fit fuel st b start cnt last value = Ret (r, st') ->
  check_cnt st' = check_cnt st /\ check_size st' = check_size st.
Proof.
  unfold next_fit. intros H. apply bind_Ret_inv in H as (o & _ & H).
  destruct o.
  - injection H as <- <-; split; reflexivity.
  - apply bind_Ret_inv in H as (o & _ & H).
    destruct o; injection H as <- <-; split; reflexivity.
Qed.

Lemma best_fit_counters fuel st b start cnt last r st' :
  best_fit fuel st b start cnt last = Ret (r, st') ->
  check_cnt st' = check_cnt st /\ check_size st' = check_size st.
Proof.
  unfold best_fit. intros H. apply bind_Ret_inv in H as (o & _ & H).
  injection H as <- <-; split; reflexivity.
Qed.

Lemma buddy_system_statics fuel st b cnt value r st' :
  buddy_system fuel st b cnt value = Ret (r, st') ->
  st' = snd (buddy_start st).
Proof.
  unfold buddy_system. destruct (buddy_start st) as [i st1]. simpl.
  destruct (cnt >? buddy_max).
  - intros H. injection H as <- <-. reflexivity.
  - intros H. apply bind_Ret_inv in H as (o & _ & H).
    injection H as <- <-. reflexivity.
Qed.

(** What one returning scan does to [check_cnt] and [check_size]. *)
Lemma bitmap_scan_counters fuel pal st b start cnt value r st' :
  0 <= check_cnt st ->
  bitmap_scan fuel pal st b start cnt value = Ret (r, st') ->
  check_size st' =
    (if check_cnt st <? 3 then wrap (check_size st + cnt) else check_size st) /\
  check_cnt st' =
    (if (check_cnt st <? 3) && counted (mk_call pal b start cnt value)
     then check_cnt st + 1 else check_cnt st).
Proof.
  intros Hst H. unfold bitmap_scan in H.
  apply bind_Ret_inv in H as (_ & _ & H).
  assert (Hsz : check_size (accumulate st cnt) =
                if check_cnt st <? 3 then wrap (check_size st + cnt)
                else check_size st).
  { unfold accumulate. destruct (check_cnt st <? 3); reflexivity. }
  assert (Hcc : check_cnt (accumulate st cnt) = check_cnt st).
  { unfold accumulate. destruct (check_cnt st <? 3); reflexivity. }
  unfold counted. cbn [c_pal c_cnt c_bitmap].
  destruct (cnt <=? bit_cnt b) eqn:Hcnt.
  2:{ injection H as <- <-. rewrite andb_false_r, andb_false_r.
      split; assumption. }
  rewrite andb_true_r.
  destruct (Z.eqb_spec pal 0) as [-> | Hp0].
  { change (0 =? BUDDY_SYSTEM) with false. rewrite andb_false_r.
    apply first_fit_counters in H as [-> ->]. split; assumption. }
  destruct (Z.eqb_spec pal 1) as [-> | Hp1].
  { change (1 =? BUDDY_SYSTEM) with false. rewrite andb_false_r.
    apply next_fit_counters in H as [-> ->]. split; assumption. }
  destruct (Z.eqb_spec pal 2) as [-> | Hp2].
  { change (2 =? BUDDY_SYSTEM) with false. rewrite andb_false_r.
    apply best_fit_counters in H as [-> ->]. split; assumption. }
  unfold BUDDY_SYSTEM.
  destruct (Z.eqb_spec pal 3) as [-> | Hp3].
  2:{ injection H as <- <-. rewrite andb_false_r. split; assumption. }
  rewrite andb_true_r.
  apply buddy_system_statics in H. subst st'. unfold buddy_start.
  rewrite Hcc.
  destruct (Z.ltb_spec (check_cnt st) 3) as [Hlt | Hge];
    cbn [snd check_cnt check_size andb].
  - split; [assumption |]. rewrite wrap_small; [reflexivity |].
    rewrite SIZE_MAX_val. lia.
  - split; assumption.
Qed.

Lemma warmup_sum_stop n cs : 3 <= n -> warmup_sum n cs = 0.
Proof.
  intros H. destruct cs as [| c cs]; simpl; [reflexivity |].
  destruct (Z.ltb_spec n 3); [lia | reflexivity].
Qed.

(** The counters after a sequence of returning scans. *)
Lemma scan_all_counters fuel cs : forall st st',
  0 <= check_cnt st -> is_size (check_size st) ->
  scan_all fuel st cs = Ret st' ->
  check_cnt st' = buddy_calls (check_cnt st) cs /\
  check_size st' = wrap (check_size st + warmup_sum (check_cnt st) cs).
Proof.
  induction cs as [| c cs IH]; intros st st' Hc Hs H.
  - injection H as <-. simpl. rewrite Z.add_0_r, wrap_small by exact Hs.
    split; reflexivity.
  - simpl in H. apply bind_Ret_inv in H as ([r st1] & Hscan & H).
    simpl in H.
    destruct c as [pal b start cnt value]. cbn [c_pal c_bitmap c_start c_cnt c_value] in Hscan.
    apply bitmap_scan_counters in Hscan as [Hsz Hcc]; [| assumption].
    assert (Hc1 : 0 <= check_cnt st1).
    { rewrite Hcc. destruct (_ && _); lia. }
    assert (Hs1 : is_size (check_size st1)).
    { rewrite Hsz. destruct (check_cnt st <? 3); [apply wrap_range | exact Hs]. }
    destruct (IH st1 st' Hc1 Hs1 H) as [-> ->].
    rewrite Hcc, Hsz. cbn [buddy_calls warmup_sum c_cnt].
    destruct (Z.ltb_spec (check_cnt st) 3) as [Hlt | Hge]; cbn [andb].
    + split; [reflexivity |]. rewrite wrap_add_l. f_equal. lia.
    + split; [reflexivity |]. rewrite warmup_sum_stop by lia. reflexivity.
Qed.

(** Where only counted buddy scans are made, the accumulated sum is the
    sum over the first three buddy scans. *)
Lemma warmup_sum_buddy_only cs : forall n,
  Forall (fun c => counted c = true) cs ->
  warmup_sum n cs = buddy_sum n cs.
Proof.
  induction cs as [| c cs IH]; intros n Hall; [reflexivity |].
  inversion Hall as [| ? ? Hc Hcs]; subst. simpl. rewrite Hc.
  unfold counted in Hc. apply andb_true_iff in Hc as [-> _].
  rewrite IH by assumption. reflexivity.
Qed.

(** C3, as stated, fails: a first-fit scan for 5 units made before three
    buddy scans for 1 unit each leaves 8 in the accumulator, while the
    buddy scans asked for 3 in all; the next buddy walk starts at 8. *)
Lemma accumulator_counts_other_strategies :
  exists st,
    scan_all 20 statics_init calls_mixed = Ret st /\
    check_size st = 8 /\
    buddy_sum 0 calls_mixed = 3 /\
    fst (buddy_start (accumulate st 1)) = 8.
Proof.
  exists (mk_statics 0 3 8).
  split; [vm_compute; reflexivity |].
  split; [reflexivity |]. split; reflexivity.
Qed.

(** C3, amended: the accumulator sums (modulo the word size) the [cnt]
    argument of every scan, whatever the strategy, made while fewer than
    three buddy scans with [cnt <= N] have been counted, which is the sum
    over the first three buddy scans when no other scan is made; a buddy
    scan starts its walk at 0 while the counter is below 3 and at the
    accumulated sum afterwards. *)
Theorem buddy_accumulator :
  (forall (fuel : nat) (cs : list call) (st' : statics),
     scan_all fuel statics_init cs = Ret st' ->
     check_cnt st' = buddy_calls 0 cs /\
     check_size st' = wrap (warmup_sum 0 cs) /\
     (Forall (fun c => counted c = true) cs ->
      check_size st' = wrap (buddy_sum 0 cs)))
  /\
  (forall (fuel : nat) (st : statics) (b : bitmap) (start cnt : Z)
          (value : bool),
     0 <= start <= bit_cnt b -> cnt <= bit_cnt b -> cnt <= buddy_max ->
     bitmap_scan fuel BUDDY_SYSTEM st b start cnt value =
       (r <- buddy_bound fuel b cnt value (check_size (accumulate st cnt)) 512
               (if check_cnt st <? 3 then 0 else check_size st) ;;
        Ret (r, snd (buddy_start (accumulate st cnt))))).
Proof.
  split.
  - intros fuel cs st' H.
    apply scan_all_counters in H as [Hc Hs]; simpl; try lia.
    2:{ unfold is_size. simpl. rewrite SIZE_MAX_val. lia. }
    simpl in Hc, Hs. repeat split; try assumption.
    intros Hall. rewrite Hs, warmup_sum_buddy_only by assumption. reflexivity.
  - intros fuel st b start cnt value Hs Hc Hm. unfold bitmap_scan.
    rewrite ASSERT_true by (apply Z.leb_le; lia). cbn [bind].
    destruct (Z.leb_spec cnt (bit_cnt b)) as [_ | ?]; [| lia].
    change (BUDDY_SYSTEM =? 0) with false. change (BUDDY_SYSTEM =? 1) with false.
    change (BUDDY_SYSTEM =? 2) with false. change (BUDDY_SYSTEM =? 3) with true.
    cbn iota. unfold buddy_system, buddy_start.
    assert (Hcc : check_cnt (accumulate st cnt) = check_cnt st).
    { unfold accumulate. destruct (check_cnt st <? 3); reflexivity. }
    rewrite Hcc.
    destruct (Z.gtb_spec cnt buddy_max) as [? | _]; [lia |].
    destruct (Z.ltb_spec (check_cnt st) 3) as [Hlt | Hge].
    + reflexivity.
    + cbn [fst snd]. unfold accumulate.
      destruct (Z.ltb_spec (check_cnt st) 3); [lia | reflexivity].
Qed.

Lemma buddy_accumulator_witness :
  check_cnt (mk_statics 0 3 8) = buddy_calls 0 calls_mixed /\
  check_size (mk_statics 0 3 8) = wrap (warmup_sum 0 calls_mixed) /\
  (Forall (fun c => counted c = true) calls_mixed ->
   check_size (mk_statics 0 3 8) = wrap (buddy_sum 0 calls_mixed)).
Proof.
  apply (proj1 buddy_accumulator 20%nat calls_mixed (mk_statics 0 3 8)).
  reflexivity.
Defined.

(** ** Where a scan can land *)

Lemma search_loop_in_range fuel b cnt value hi i j :
  wf_bitmap b -> 0 <= cnt -> 0 <= i ->
  search_loop fuel b cnt value hi i = Ret (Some j) ->
  0 <= j /\ j + cnt <= bit_cnt b.
Proof.
  intros Hwf Hc Hi H. apply search_loop_found in H as [Hj H]; [| assumption].
  apply bitmap_contains_false in H as [Hle _]; try assumption.
  split; assumption.
Qed.

Lemma best_fit_run_nonneg fuel : forall b last i r,
  best_fit_run fuel b last i = Ret r -> 0 <= r.
Proof.
  induction fuel as [| fuel IH]; intros b last i r H; [discriminate |].
  simpl in H. pose proof (wrap_range (i + 1)) as Hw.
  destruct (wrap (i + 1) =? last).
  - injection H as <-. lia.
  - apply bind_Ret_inv in H as (t & _ & H). destruct t.
    + injection H as <-. lia.
    + apply IH in H. exact H.
Qed.

Lemma best_fit_loop_in_range fuel : forall b cnt last i idx size r,
  idx = BEST_NONE \/ 0 <= idx < last -> 0 <= i ->
  best_fit_loop fuel b cnt last i idx size = Ret r ->
  r = BITMAP_ERROR \/ 0 <= r < last.
Proof.
  induction fuel as [| fuel IH]; intros b cnt last i idx size r Hidx Hi H;
    [discriminate |].
  simpl in H. destruct (Z.geb_spec i last) as [Hge | Hlt].
  - destruct (Z.eqb_spec idx BEST_NONE) as [-> | Hne].
    + injection H as <-. left. reflexivity.
    + injection H as <-. right. destruct Hidx; [contradiction | assumption].
  - apply bind_Ret_inv in H as (t & _ & H). destruct t; simpl in H.
    + apply IH in H; [assumption | assumption | apply wrap_range].
    + apply bind_Ret_inv in H as (i' & Hrun & H).
      apply best_fit_run_nonneg in Hrun.
      apply bind_Ret_inv in H as (temp_size & _ & H).
      destruct (cnt <=? temp_size).
      * destruct (size =? 0).
        -- apply IH in H; [assumption | right; lia | assumption].
        -- destruct (wrap (size - cnt) >? wrap (temp_size - cnt)).
           ++ apply IH in H; [assumption | right; lia | assumption].
           ++ apply IH in H; assumption.
      * apply IH in H; assumption.
Qed.

Lemma bound_ladder_half bound :
  bound_ladder bound ->
  bound_ladder (bound / 2) /\
  (bound / 2 = 0 -> bound <= 1) /\
  (bound / 2 <> 0 -> wrap (bound / 2 * 2) = bound).
Proof.
  unfold bound_ladder. intros H.
  repeat (destruct H as [-> | H]); try subst bound;
    (split; [vm_compute; tauto |]); split; intros H'; vm_compute in *;
    congruence.
Qed.

Lemma buddy_walk_in_range fuel : forall b cnt value chk_size bound i offset r,
  wf_bitmap b -> 0 <= i -> 0 <= cnt ->
  (bound = 0 -> cnt <= 1) -> (bound <> 0 -> cnt <= wrap (bound * 2)) ->
  buddy_walk fuel b cnt value chk_size bound i offset = Ret r ->
  r = BITMAP_ERROR \/ (0 <= r /\ r + cnt <= bit_cnt b).
Proof.
  induction fuel as [| fuel IH];
    intros b cnt value chk_size bound i offset r Hwf Hi Hc Hb0 Hb1 H;
    [discriminate |].
  simpl in H. destruct (i >=? wrap (buddy_max + chk_size)).
  { injection H as <-. left. reflexivity. }
  apply bind_Ret_inv in H as (t & Ht & H). destruct t.
  - apply bind_Ret_inv in H as (m & _ & H).
    destruct m as [off |]; [| injection H as <-; left; reflexivity].
    destruct (buddy_round off) as [off' |];
      [| injection H as <-; left; reflexivity].
    destruct (off' >? wrap (bound * 2));
      apply IH in H; try assumption; apply wrap_range.
  - destruct (Z.eqb_spec bound 0) as [Hz | Hnz]; simpl in H.
    + apply bind_Ret_inv in H as (t' & Ht' & H). destruct t'; simpl in H.
      * apply IH in H; try assumption. apply wrap_range.
      * injection H as <-. right. apply bitmap_test_Ret in Ht' as [Hlt _].
        specialize (Hb0 Hz). lia.
    + apply bind_Ret_inv in H as (c & Hcont & H). destruct c; simpl in H.
      * apply IH in H; try assumption. apply wrap_range.
      * injection H as <-. right.
        apply bitmap_contains_false in Hcont as [Hle _];
          [| assumption | assumption | apply wrap_range].
        specialize (Hb1 Hnz). lia.
Qed.

Lemma buddy_bound_in_range fuel : forall b cnt value chk_size bound i r,
  wf_bitmap b -> 0 <= i -> 0 <= cnt <= bound -> bound_ladder bound ->
  buddy_bound fuel b cnt value chk_size bound i = Ret r ->
  r = BITMAP_ERROR \/ (0 <= r /\ r + cnt <= bit_cnt b).
Proof.
  induction fuel as [| fuel IH];
    intros b cnt value chk_size bound i r Hwf Hi Hc Hlad H; [discriminate |].
  simpl in H. destruct (bound_ladder_half bound Hlad) as (Hlad' & Hz & Hnz).
  destruct (Z.gtb_spec cnt (bound / 2)) as [Hgt | Hle].
  - apply buddy_walk_in_range in H; try assumption; lia.
  - apply IH in H; try assumption. lia.
Qed.

(** Every index returned by [bitmap_scan], [BITMAP_ERROR] apart, leaves
    room for [cnt] bits below the end of the bitmap. *)
Lemma bitmap_scan_in_range fuel pal st b start cnt value r st' :
  wf_bitmap b -> wf_statics st -> 0 <= start -> 0 <= cnt ->
  bitmap_scan fuel pal st b start cnt value = Ret (r, st') ->
  r = BITMAP_ERROR \/ (0 <= r /\ r + cnt <= bit_cnt b).
Proof.
  intros Hwf Hst Hs Hc H. pose proof Hwf as [[H0 Hmax] _].
  unfold bitmap_scan in H. apply bind_Ret_inv in H as (_ & _ & H).
  destruct (Z.leb_spec cnt (bit_cnt b)) as [Hle | Hgt];
    [| injection H as <- _; left; reflexivity].
  rewrite wrap_small in H by lia.
  assert (Hlat : 0 <= latest (accumulate st cnt)).
  { unfold accumulate. destruct (check_cnt st <? 3); simpl; apply Hst. }
  assert (Hsz : 0 <= check_size (accumulate st cnt)).
  { unfold accumulate. destruct (check_cnt st <? 3); simpl;
      [apply wrap_range | apply Hst]. }
  destruct (pal =? 0).
  { unfold first_fit in H. apply bind_Ret_inv in H as (o & Ho & H).
    destruct o as [j |]; injection H as <- _; [right | left; reflexivity].
    apply (search_loop_in_range _ _ _ _ _ _ _ Hwf Hc Hs Ho). }
  destruct (pal =? 1).
  { unfold next_fit in H. apply bind_Ret_inv in H as (o & Ho & H).
    destruct o as [j |].
    - injection H as <- _. right.
      apply (search_loop_in_range _ _ _ _ _ _ _ Hwf Hc Hlat Ho).
    - apply bind_Ret_inv in H as (o & Ho' & H).
      destruct o as [j |]; injection H as <- _; [right | left; reflexivity].
      apply (search_loop_in_range _ _ _ _ _ _ _ Hwf Hc Hs Ho'). }
  destruct (pal =? 2).
  { unfold best_fit in H. apply bind_Ret_inv in H as (r' & Hr & H).
    injection H as <- _.
    apply best_fit_loop_in_range in Hr; [| left; reflexivity | assumption].
    destruct Hr as [-> | Hr]; [left; reflexivity | right; lia]. }
  destruct (pal =? 3); [| injection H as <- _; left; reflexivity].
  unfold buddy_system in H.
  destruct (buddy_start (accumulate st cnt)) as [i st1] eqn:Hstart.
  assert (Hi : 0 <= i).
  { unfold buddy_start in Hstart.
    destruct (check_cnt (accumulate st cnt) <? 3);
      injection Hstart as <- _; lia. }
  destruct (Z.gtb_spec cnt buddy_max) as [? | Hm];
    [injection H as <- _; left; reflexivity |].
  apply bind_Ret_inv in H as (r' & Hr & H). injection H as <- _.
  apply buddy_bound_in_range in Hr; try assumption.
  - unfold buddy_max in Hm. lia.
  - left. reflexivity.
Qed.

(** ** Scan and flip *)

(** C8: [bitmap_scan_and_flip] returns what [bitmap_scan] returns (and
    fails as it fails); when the index is not [BITMAP_ERROR] the [cnt]
    bits from it on are set to [!value] and every other bit keeps its
    value; when it is [BITMAP_ERROR] the bitmap is the one passed in. *)
Theorem scan_and_flip_spec (fuel : nat) (pal : Z) (st : statics) (b : bitmap)
  (start cnt : Z) (value : bool) :
  wf_bitmap b -> wf_statics st -> 0 <= start -> 0 <= cnt ->
  match bitmap_scan fuel pal st b start cnt value with
  | Ret (idx, st') =>
      exists b',
        bitmap_scan_and_flip fuel pal st b start cnt value
          = Ret (idx, st', b') /\
        if idx =? BITMAP_ERROR then b' = b
        else
          bit_cnt b' = bit_cnt b /\
          forall k, 0 <= k < bit_cnt b ->
            bit_at b' k =
              if (idx <=? k) && (k <? idx + cnt) then negb value
              else bit_at b k
  | Panic => bitmap_scan_and_flip fuel pal st b start cnt value = Panic
  | OutOfFuel => bitmap_scan_and_flip fuel pal st b start cnt value = OutOfFuel
  end.
Proof.
  intros Hwf Hst Hs Hc. unfold bitmap_scan_and_flip.
  destruct (bitmap_scan fuel pal st b start cnt value) as [[idx st'] | |] eqn:Hscan;
    [| reflexivity | reflexivity].
  cbn [bind].
  apply bitmap_scan_in_range in Hscan; try assumption.
  destruct (Z.eqb_spec idx BITMAP_ERROR) as [-> | Hne]; cbn [negb].
  - exists b. split; reflexivity.
  - destruct Hscan as [? | [Hidx Hle]]; [contradiction |].
    destruct (bitmap_set_multiple_spec b idx cnt (negb value) Hwf Hidx Hc Hle)
      as (b' & -> & _ & Hcnt & Hbits).
    exists b'. split; [reflexivity |]. split; [assumption |].
    intros k Hk. apply Hbits. lia.
Qed.

Lemma scan_and_flip_spec_witness :
  exists b',
    bitmap_scan_and_flip 21 FIRST_FIT statics_init bm_free_5_10 0 3 false
      = Ret (5, accumulate statics_init 3, b') /\
    (bit_cnt b' = bit_cnt bm_free_5_10 /\
     forall k, 0 <= k < bit_cnt bm_free_5_10 ->
       bit_at b' k =
         if (5 <=? k) && (k <? 5 + 3) then negb false
         else bit_at bm_free_5_10 k).
Proof.
  apply (scan_and_flip_spec 21%nat FIRST_FIT statics_init bm_free_5_10 0 3 false).
  - unfold wf_bitmap; simpl. rewrite SIZE_MAX_val. unfold ELEM_BITS. lia.
  - unfold wf_statics, is_size; simpl. rewrite SIZE_MAX_val. lia.
  - lia.
  - lia.
Defined.

(** ** Fuel *)

Lemma approx_refl {A} (r : result A) : approx r r.
Proof. right. reflexivity. Qed.

Lemma approx_out {A} (r : result A) : approx OutOfFuel r.
Proof. left. reflexivity. Qed.

Lemma approx_bind {A B} (c c' : result A) (k k' : A -> result B) :
  approx c c' -> (forall a, approx (k a) (k' a)) ->
  approx (bind c k) (bind c' k').
Proof.
  intros [-> | ->] Hk; [apply approx_out |].
  destruct c'; simpl; [apply Hk | apply approx_refl | apply approx_refl].
Qed.

Create HintDb fuel.
#[local] Hint Resolve approx_refl approx_out : fuel.

(** Walks through the body of a loop, branch by branch. *)
Ltac fuel_step :=
  repeat first
    [ progress auto with fuel
    | apply approx_bind; [auto with fuel | intros ?]
    | match goal with
      | |- approx (if ?c then _ else _) (if ?c then _ else _) => destruct c
      | |- approx (match ?o with Some _ => _ | None => _ end)
                  (match ?o with Some _ => _ | None => _ end) => destruct o
      end ].

Lemma search_loop_mono fuel : forall fuel' b cnt value hi i,
  (fuel <= fuel')%nat ->
  approx (search_loop fuel b cnt value hi i)
         (search_loop fuel' b cnt value hi i).
Proof.
  induction fuel as [| fuel IH]; intros fuel' b cnt value hi i Hle;
    [apply approx_out |].
  destruct fuel' as [| fuel']; [lia |]. simpl.
  assert (Hrec : forall j, approx (search_loop fuel b cnt value hi j)
                                  (search_loop fuel' b cnt value hi j))
    by (intros j; apply IH; lia).
  fuel_step.
Qed.

Lemma best_fit_run_mono fuel : forall fuel' b last i,
  (fuel <= fuel')%nat ->
  approx (best_fit_run fuel b last i) (best_fit_run fuel' b last i).
Proof.
  induction fuel as [| fuel IH]; intros fuel' b last i Hle;
    [apply approx_out |].
  destruct fuel' as [| fuel']; [lia |]. simpl.
  assert (Hrec : forall j, approx (best_fit_run fuel b last j)
                                  (best_fit_run fuel' b last j))
    by (intros j; apply IH; lia).
  fuel_step.
Qed.

Lemma best_fit_loop_mono fuel : forall fuel' b cnt last i idx size,
  (fuel <= fuel')%nat ->
  approx (best_fit_loop fuel b cnt last i idx size)
         (best_fit_loop fuel' b cnt last i idx size).
Proof.
  induction fuel as [| fuel IH]; intros fuel' b cnt last i idx size Hle;
    [apply approx_out |].
  destruct fuel' as [| fuel']; [lia |]. simpl.
  assert (Hrec : forall j idx' size',
            approx (best_fit_loop fuel b cnt last j idx' size')
                   (best_fit_loop fuel' b cnt last j idx' size'))
    by (intros; apply IH; lia).
  assert (Hrun : approx (best_fit_run fuel b last i)
                        (best_fit_run fuel' b last i))
    by (apply best_fit_run_mono; lia).
  fuel_step.
Qed.

Lemma buddy_measure_mono fuel : forall fuel' b chk_size j offset,
  (fuel <= fuel')%nat ->
  approx (buddy_measure fuel b chk_size j offset)
         (buddy_measure fuel' b chk_size j offset).
Proof.
  induction fuel as [| fuel IH]; intros fuel' b chk_size j offset Hle;
    [apply approx_out |].
  destruct fuel' as [| fuel']; [lia |]. simpl.
  assert (Hrec : forall j' o, approx (buddy_measure fuel b chk_size j' o)
                                     (buddy_measure fuel' b chk_size j' o))
    by (intros; apply IH; lia).
  fuel_step.
Qed.

Lemma buddy_walk_mono fuel : forall fuel' b cnt value chk_size bound i offset,
  (fuel <= fuel')%nat ->
  approx (buddy_walk fuel b cnt value chk_size bound i offset)
         (buddy_walk fuel' b cnt value chk_size bound i offset).
Proof.
  induction fuel as [| fuel IH];
    intros fuel' b cnt value chk_size bound i offset Hle; [apply approx_out |].
  destruct fuel' as [| fuel']; [lia |]. simpl.
  assert (Hrec : forall j o,
            approx (buddy_walk fuel b cnt value chk_size bound j o)
                   (buddy_walk fuel' b cnt value chk_size bound j o))
    by (intros; apply IH; lia).
  assert (Hm : approx (buddy_measure fuel b chk_size i offset)
                      (buddy_measure fuel' b chk_size i offset))
    by (apply buddy_measure_mono; lia).
  fuel_step.
Qed.

Lemma buddy_bound_mono fuel : forall fuel' b cnt value chk_size bound i,
  (fuel <= fuel')%nat ->
  approx (buddy_bound fuel b cnt value chk_size bound i)
         (buddy_bound fuel' b cnt value chk_size bound i).
Proof.
  induction fuel as [| fuel IH];
    intros fuel' b cnt value chk_size bound i Hle; [apply approx_out |].
  destruct fuel' as [| fuel']; [lia |]. simpl.
  destruct (cnt >? bound / 2).
  - apply buddy_walk_mono. lia.
  - apply IH. lia.
Qed.

(** More fuel does not change an answer of [bitmap_scan]. *)
Lemma bitmap_scan_mono fuel fuel' pal st b start cnt value :
  (fuel <= fuel')%nat ->
  approx (bitmap_scan fuel pal st b start cnt value)
         (bitmap_scan fuel' pal st b start cnt value).
Proof.
  intros Hle. unfold bitmap_scan.
  apply approx_bind; [apply approx_refl | intros _].
  destruct (cnt <=? bit_cnt b); [| apply approx_refl].
  pose proof (search_loop_mono fuel fuel' b cnt value) as Hs.
  destruct (pal =? 0).
  { unfold first_fit. apply approx_bind; [apply Hs; lia |].
    intros a. apply approx_refl. }
  destruct (pal =? 1).
  { unfold next_fit. apply approx_bind; [apply Hs; lia |].
    intros [j |]; [apply approx_refl |].
    apply approx_bind; [apply Hs; lia |]. intros a. apply approx_refl. }
  destruct (pal =? 2).
  { unfold best_fit. apply approx_bind; [apply best_fit_loop_mono; lia |].
    intros a. apply approx_refl. }
  destruct (pal =? 3); [| apply approx_refl].
  unfold buddy_system. destruct (buddy_start _) as [i st1].
  destruct (cnt >? buddy_max); [apply approx_refl |].
  apply approx_bind; [apply buddy_bound_mono; lia |].
  intros a. apply approx_refl.
Qed.

Lemma bitmap_scan_fuel fuel fuel' pal st b start cnt value r :
  (fuel <= fuel')%nat ->
  bitmap_scan fuel pal st b start cnt value = r -> r <> OutOfFuel ->
  bitmap_scan fuel' pal st b start cnt value = r.
Proof.
  intros Hle H Hr.
  destruct (bitmap_scan_mono fuel fuel' pal st b start cnt value Hle)
    as [Hout | Heq]; congruence.
Qed.

(** ** Best fit *)

Lemma best_fit_loop_free fuel : forall b cnt last i idx size r,
  idx = BEST_NONE \/ bit_at b idx = false ->
  best_fit_loop fuel b cnt last i idx size = Ret r ->
  r = BITMAP_ERROR \/ bit_at b r = false.
Proof.
  induction fuel as [| fuel IH]; intros b cnt last i idx size r Hidx H;
    [discriminate |].
  simpl in H. destruct (i >=? last).
  - destruct (Z.eqb_spec idx BEST_NONE) as [-> | Hne].
    + injection H as <-. left. reflexivity.
    + injection H as <-. right. destruct Hidx; [contradiction | assumption].
  - apply bind_Ret_inv in H as (t & Ht & H). destruct t; simpl in H.
    + apply IH in H; assumption.
    + apply bitmap_test_Ret in Ht as [_ Ht].
      apply bind_Ret_inv in H as (i' & _ & H).
      apply bind_Ret_inv in H as (temp_size & _ & H).
      destruct (cnt <=? temp_size).
      * destruct (size =? 0).
        -- apply IH in H; [assumption | right; congruence].
        -- destruct (wrap (size - cnt) >? wrap (temp_size - cnt)).
           ++ apply IH in H; [assumption | right; congruence].
           ++ apply IH in H; assumption.
      * apply IH in H; assumption.
Qed.

(** C9: under best fit the answer of a scan is the same for [value = true]
    and [value = false]; the index returned, [BITMAP_ERROR] apart, is that
    of a false bit whatever [value] is. *)
Theorem best_fit_ignores_value (fuel : nat) (st : statics) (b : bitmap)
  (start cnt : Z) :
  bitmap_scan fuel BEST_FIT st b start cnt true
    = bitmap_scan fuel BEST_FIT st b start cnt false
  /\
  forall value r st',
    bitmap_scan fuel BEST_FIT st b start cnt value = Ret (r, st') ->
    r = BITMAP_ERROR \/ bit_at b r = false.
Proof.
  split; [reflexivity |].
  intros value r st' H. unfold bitmap_scan in H.
  apply bind_Ret_inv in H as (_ & _ & H).
  destruct (cnt <=? bit_cnt b); [| injection H as <- _; left; reflexivity].
  change (BEST_FIT =? 0) with false in H. change (BEST_FIT =? 1) with false in H.
  change (BEST_FIT =? 2) with true in H. cbn iota in H.
  unfold best_fit in H. apply bind_Ret_inv in H as (r' & Hr & H).
  injection H as <- _.
  apply best_fit_loop_free in Hr; [assumption | left; reflexivity].
Qed.

Lemma best_fit_ignores_value_witness :
  bitmap_scan 30 BEST_FIT statics_init bm_runs_4_2 0 2 true
    = bitmap_scan 30 BEST_FIT statics_init bm_runs_4_2 0 2 false
  /\
  (0 = BITMAP_ERROR \/ bit_at bm_runs_4_2 0 = false).
Proof.
  destruct (best_fit_ignores_value 30 statics_init bm_runs_4_2 0 2) as [Heq Hfree].
  split; [exact Heq |].
  apply (Hfree true 0 (mk_statics 0 0 2)). vm_compute. reflexivity.
Defined.

(** C2 fails on the code: on the 20-bit bitmap whose free runs are [0,4)
    and [10,12), a best-fit scan for 2 false bits returns 0, the start of
    the run of 4, and not 10, the start of the run of exactly 2; a run of
    exactly [cnt] bits is not taken at all (a scan for 5 bits on the bitmap
    free only in [5,10) finds nothing, where first fit finds 5). *)
Theorem best_fit_misses_tight_run :
  bitmap_scan 30 BEST_FIT statics_init bm_runs_4_2 0 2 false
    = Ret (0, mk_statics 0 0 2) /\
  run_of bm_runs_4_2 10 2 false /\
  bit_at bm_runs_4_2 9 = true /\ bit_at bm_runs_4_2 12 = true /\
  bitmap_scan 30 BEST_FIT statics_init bm_free_5_10 0 5 false
    = Ret (BITMAP_ERROR, mk_statics 0 0 5) /\
  bitmap_scan 30 FIRST_FIT statics_init bm_free_5_10 0 5 false
    = Ret (5, mk_statics 0 0 5).
Proof.
  split; [vm_compute; reflexivity |].
  split.
  { intros k Hk. assert (k = 10 \/ k = 11) as [-> | ->] by lia; reflexivity. }
  repeat split; vm_compute; reflexivity.
Qed.

(** ** Next fit *)

(** X15: next fit where the cursor is at most [last = N - cnt]: the first pass
    returns the smallest qualifying index of [latest .. last] and moves
    the cursor there; failing that, the second pass returns the smallest
    qualifying index of [start .. latest] and moves the cursor there;
    failing that too, the answer is [BITMAP_ERROR] and the cursor stays. *)
Lemma next_fit_cursor_in_range (fuel : nat) (st : statics) (b : bitmap)
  (start cnt : Z) (value : bool) :
  wf_bitmap b -> 0 <= start <= bit_cnt b -> 1 <= cnt <= bit_cnt b ->
  0 <= latest st <= bit_cnt b - cnt ->
  (Z.to_nat (bit_cnt b) < fuel)%nat ->
  let st1 := accumulate st cnt in
  exists r st',
    bitmap_scan fuel NEXT_FIT st b start cnt value = Ret (r, st') /\
    ((latest st <= r <= bit_cnt b - cnt /\ run_of b r cnt value /\
      (forall k, latest st <= k < r -> ~ run_of b k cnt value) /\
      st' = set_latest st1 r)
     \/
     ((forall k, latest st <= k <= bit_cnt b - cnt -> ~ run_of b k cnt value) /\
      start <= r <= latest st /\ run_of b r cnt value /\
      (forall k, start <= k < r -> ~ run_of b k cnt value) /\
      st' = set_latest st1 r)
     \/
     ((forall k, latest st <= k <= bit_cnt b - cnt -> ~ run_of b k cnt value) /\
      (forall k, start <= k <= latest st -> ~ run_of b k cnt value) /\
      r = BITMAP_ERROR /\ st' = st1)).
Proof.
  intros Hwf Hs Hc Hl Hf st1. pose proof Hwf as [[H0 Hmax] _].
  assert (Hlat : latest st1 = latest st).
  { unfold st1, accumulate. destruct (check_cnt st <? 3); reflexivity. }
  unfold bitmap_scan. rewrite ASSERT_true by (apply Z.leb_le; lia).
  cbn [bind]. fold st1.
  destruct (Z.leb_spec cnt (bit_cnt b)) as [_ | ?]; [| lia].
  change (NEXT_FIT =? 0) with false. change (NEXT_FIT =? 1) with true.
  cbn iota. rewrite wrap_small by lia. unfold next_fit. rewrite Hlat.
  destruct (search_loop_spec fuel b cnt value (bit_cnt b - cnt) (latest st)
              Hwf ltac:(lia) ltac:(lia) ltac:(lia) ltac:(lia) ltac:(lia))
    as (r1 & -> & Hr1).
  cbn [bind]. destruct r1 as [j |].
  - exists j, (set_latest st1 j). split; [reflexivity |]. left.
    destruct Hr1 as (? & ? & ?). repeat split; try assumption; lia.
  - destruct (search_loop_spec fuel b cnt value (latest st) start
                Hwf ltac:(lia) ltac:(lia) ltac:(lia) ltac:(lia) ltac:(lia))
      as (r2 & -> & Hr2).
    cbn [bind]. destruct r2 as [j |].
    + exists j, (set_latest st1 j). split; [reflexivity |]. right. left.
      destruct Hr2 as (? & ? & ?). repeat split; try assumption; lia.
    + exists BITMAP_ERROR, st1. split; [reflexivity |]. right. right.
      repeat split; assumption.
Qed.

(** C7 fails on the code: on a 10-bit bitmap whose only free bit is the
    last, a next-fit scan for 1 bit leaves the cursor at 9; the scan for 2
    bits that follows finds nothing in its first pass, and its second pass
    runs up to the cursor, past [last = 8], where the assertion of
    [bitmap_contains] fails: the kernel panics where [BITMAP_ERROR] is
    due (the answer of first fit on the same bitmap). *)
Theorem next_fit_wrap_panics :
  bitmap_scan 30 NEXT_FIT statics_init bm_last_free 0 1 false
    = Ret (9, mk_statics 9 0 1) /\
  bitmap_scan 30 NEXT_FIT (mk_statics 9 0 1) bm_last_free 0 2 false
    = Panic /\
  bitmap_contains bm_last_free 9 2 true = Panic /\
  bitmap_scan 30 FIRST_FIT (mk_statics 9 0 1) bm_last_free 0 2 false
    = Ret (BITMAP_ERROR, mk_statics 9 0 3).
Proof. repeat split; vm_compute; reflexivity. Qed.

(** ** Buddy system *)

Lemma buddy_bound_zero_diverges fuel : forall b value chk_size bound i,
  0 <= bound ->
  buddy_bound fuel b 0 value chk_size bound i = OutOfFuel.
Proof.
  induction fuel as [| fuel IH]; intros b value chk_size bound i Hb;
    [reflexivity |].
  simpl. assert (0 <= bound / 2) by (apply Z.div_pos; lia).
  destruct (Z.gtb_spec 0 (bound / 2)) as [? | _]; [lia |].
  apply IH. assumption.
Qed.

(** Under the buddy system a scan for zero bits runs out of any fuel, on
    every bitmap. *)
Lemma buddy_zero_diverges fuel st b start value :
  0 <= bit_cnt b -> start <= bit_cnt b ->
  bitmap_scan fuel BUDDY_SYSTEM st b start 0 value = OutOfFuel.
Proof.
  intros Hn Hs. unfold bitmap_scan.
  rewrite ASSERT_true by (apply Z.leb_le; lia). cbn [bind].
  destruct (Z.leb_spec 0 (bit_cnt b)) as [_ | ?]; [| lia].
  change (BUDDY_SYSTEM =? 0) with false. change (BUDDY_SYSTEM =? 1) with false.
  change (BUDDY_SYSTEM =? 2) with false. change (BUDDY_SYSTEM =? 3) with true.
  cbn iota. unfold buddy_system.
  destruct (buddy_start (accumulate st 0)) as [i st1].
  change (0 >? buddy_max) with false. cbn iota.
  rewrite buddy_bound_zero_diverges by lia. reflexivity.
Qed.

(** C4 fails on the code: under the buddy system a scan for zero bits,
    here on the 8-bit bitmap with every bit free, never returns, whatever
    the fuel, the statics and the value: [bound] is halved for ever, as
    [cnt > bound] never holds.  A scan can also end in a panic: on the
    10-bit bitmap whose first nine bits are occupied, a buddy scan for 1
    bit steps over the occupied run to index 16 and tests a bit beyond
    the end of the bitmap. *)
Theorem buddy_zero_never_returns :
  (forall (fuel : nat) (st : statics) (value : bool),
     bitmap_scan fuel BUDDY_SYSTEM st bm_empty8 0 0 value = OutOfFuel) /\
  bitmap_scan 30 BUDDY_SYSTEM statics_init bm_last_free 0 1 false = Panic /\
  bitmap_test bm_last_free 16 = Panic.
Proof.
  split.
  - intros fuel st value. apply buddy_zero_diverges; simpl; lia.
  - split; vm_compute; reflexivity.
Qed.

(** C5 fails on the code: [offset] is not cleared between two occupied
    runs.  On the 16-bit bitmap occupied at 0, 1, 2 and 4, a buddy scan
    for 2 bits measures the first run (3 units, rounded to 4) and moves to
    4; there the run is 1 unit long, but it is measured from the 4 left in
    [offset], giving 5, rounded to 8: the walk moves to 12 and returns 12,
    where an advance by the larger of 1 and [bound * 2 = 2] leads to 6,
    which is free. *)
Theorem buddy_offset_carried_over :
  bitmap_scan 30 BUDDY_SYSTEM statics_init bm_two_runs 0 2 false
    = Ret (12, mk_statics 0 1 2) /\
  buddy_measure 30 bm_two_runs 2 0 0 = Ret (Some 3) /\
  buddy_measure 30 bm_two_runs 2 4 4 = Ret (Some 5) /\
  buddy_measure 30 bm_two_runs 2 4 0 = Ret (Some 1) /\
  buddy_round 5 = Some 8 /\ buddy_round 1 = Some 1 /\
  buddy_walk 30 bm_two_runs 2 false 2 1 6 1 = Ret 6.
Proof. repeat split; vm_compute; reflexivity. Qed.

(** ** Scans for zero bits, strategy by strategy *)

(** C1 fails on the code, also from [start = 0], where the comment of
    [bitmap_scan_and_flip] promises 0 for [cnt = 0]: on the 4-bit bitmap
    with every bit occupied a best-fit scan for zero bits returns
    [BITMAP_ERROR] (and so does [bitmap_scan_and_flip]); on the 20-bit
    bitmap free in [0,4) and [10,12) it returns 10; a next-fit scan returns
    the cursor, here 3; a buddy scan never returns, whatever the fuel.
    First fit returns [start]: 0 from [start = 0], 1 from [start = 1]. *)
Theorem scan_zero_not_zero :
  bitmap_scan 30 BEST_FIT statics_init bm_full4 0 0 false
    = Ret (BITMAP_ERROR, statics_init) /\
  bitmap_scan_and_flip 30 BEST_FIT statics_init bm_full4 0 0 false
    = Ret (BITMAP_ERROR, statics_init, bm_full4) /\
  bitmap_scan 30 BEST_FIT statics_init bm_runs_4_2 0 0 false
    = Ret (10, statics_init) /\
  bitmap_scan 30 NEXT_FIT (mk_statics 3 0 0) bm_full4 0 0 false
    = Ret (3, mk_statics 3 0 0) /\
  (forall fuel : nat,
     bitmap_scan fuel BUDDY_SYSTEM statics_init bm_full4 0 0 false
       = OutOfFuel) /\
  bitmap_scan 30 FIRST_FIT statics_init bm_full4 0 0 false
    = Ret (0, statics_init) /\
  bitmap_scan 30 FIRST_FIT statics_init bm_full4 1 0 false
    = Ret (1, statics_init).
Proof.
  split; [vm_compute; reflexivity |].
  split; [vm_compute; reflexivity |].
  split; [vm_compute; reflexivity |].
  split; [vm_compute; reflexivity |].
  split.
  - intros fuel. apply buddy_zero_diverges; simpl; lia.
  - split; vm_compute; reflexivity.
Qed.

(** * Further properties of the bitmap *)

(** ** Setting, clearing and toggling one bit *)

Lemma bit_at_flip b j k :
  wf_bitmap b -> 0 <= j < bit_cnt b -> 0 <= k ->
  bit_at (bitmap_flip b j) k = if k =? j then negb (bit_at b k) else bit_at b k.
Proof.
  intros Hwf Hj Hk. pose proof (elem_idx_range b j Hwf Hj) as Hr.
  rewrite !bit_at_testbit. unfold bitmap_flip.
  pose proof (Z.mod_pos_bound j ELEM_BITS ltac:(unfold ELEM_BITS; lia)) as Hmj.
  pose proof (Z.mod_pos_bound k ELEM_BITS ltac:(unfold ELEM_BITS; lia)) as Hmk.
  destruct (Z.eq_dec (elem_idx j) (elem_idx k)) as [He | He].
  - rewrite <- He, elem_at_store_eq by lia.
    rewrite Z.lxor_spec, bit_mask_pow2, Z.pow2_bits_eqb by lia.
    destruct (Z.eqb_spec k j) as [-> | Hne].
    + rewrite Z.eqb_refl. apply xorb_true_r.
    + destruct (Z.eqb_spec (j mod ELEM_BITS) (k mod ELEM_BITS)) as [Hm | Hm].
      * exfalso. apply Hne. symmetry. apply same_bit_position; assumption.
      * apply xorb_false_r.
  - rewrite elem_at_store_ne.
    + destruct (Z.eqb_spec k j) as [-> | Hne]; [congruence | reflexivity].
    + lia.
    + unfold elem_idx, ELEM_BITS. apply Z.div_pos; lia.
    + exact He.
Qed.

Lemma elem_store_same b idx :
  0 <= idx < Z.of_nat (length (bits b)) ->
  elem_store b idx (elem_at b idx) = b.
Proof.
  intros H. unfold elem_store, elem_at. destruct b as [n l]. simpl in *.
  f_equal. apply list_insert_id.
  destruct (lookup_lt_is_Some_2 l (Z.to_nat idx) ltac:(lia)) as [w Hw].
  rewrite Hw. reflexivity.
Qed.

Lemma elem_store_twice b idx w w' :
  elem_store (elem_store b idx w) idx w' = elem_store b idx w'.
Proof.
  unfold elem_store. simpl. f_equal. apply list_insert_insert_eq.
Qed.

(** X1: setting bit [idx < N] to [value] makes [bitmap_test] answer
    [value] at [idx] and leaves its answer at every other index, and the
    size, as they were. *)
Theorem bitmap_set_then_test (b : bitmap) (idx j : Z) (value : bool) :
  wf_bitmap b -> 0 <= idx < bit_cnt b -> 0 <= j < bit_cnt b ->
  exists b',
    bitmap_set b idx value = Ret b' /\ wf_bitmap b' /\
    bitmap_size b' = bitmap_size b /\
    bitmap_test b' j = (if j =? idx then Ret value else bitmap_test b j).
Proof.
  intros Hwf Hidx Hj.
  destruct (bitmap_set_spec b idx value Hwf Hidx) as (b' & Hset & Hwf' & Hcnt & Hbits).
  exists b'. unfold bitmap_size. repeat split; try assumption; try apply Hwf'.
  rewrite !bitmap_test_in, Hbits by lia.
  destruct (Z.eqb_spec j idx); reflexivity.
Qed.

Lemma bitmap_set_then_test_witness :
  exists b',
    bitmap_set bm_free_5_10 7 true = Ret b' /\ wf_bitmap b' /\
    bitmap_size b' = bitmap_size bm_free_5_10 /\
    bitmap_test b' 8 = (if 8 =? 7 then Ret true else bitmap_test bm_free_5_10 8).
Proof.
  apply (bitmap_set_then_test bm_free_5_10 7 8 true).
  - unfold wf_bitmap; simpl. rewrite SIZE_MAX_val. unfold ELEM_BITS. lia.
  - simpl. lia.
  - simpl. lia.
Defined.

(** X2: [bitmap_flip] at [idx < N] inverts the bit at [idx] and no other
    bit; flipping the same bit twice gives back the bitmap, element for
    element. *)
Theorem bitmap_flip_twice (b : bitmap) (idx : Z) :
  wf_bitmap b -> 0 <= idx < bit_cnt b ->
  bitmap_flip (bitmap_flip b idx) idx = b /\
  forall k, 0 <= k ->
    bit_at (bitmap_flip b idx) k =
      if k =? idx then negb (bit_at b k) else bit_at b k.
Proof.
  intros Hwf Hidx. pose proof (elem_idx_range b idx Hwf Hidx) as Hr.
  split; [| intros k Hk; apply bit_at_flip; assumption].
  unfold bitmap_flip at 1. unfold bitmap_flip.
  rewrite elem_at_store_eq by lia. rewrite elem_store_twice.
  rewrite Z.lxor_assoc, Z.lxor_nilpotent, Z.lxor_0_r.
  apply elem_store_same. lia.
Qed.

Lemma bitmap_flip_twice_witness :
  bitmap_flip (bitmap_flip bm_free_5_10 7) 7 = bm_free_5_10 /\
  forall k, 0 <= k ->
    bit_at (bitmap_flip bm_free_5_10 7) k =
      if k =? 7 then negb (bit_at bm_free_5_10 k) else bit_at bm_free_5_10 k.
Proof.
  apply (bitmap_flip_twice bm_free_5_10 7).
  - unfold wf_bitmap; simpl. rewrite SIZE_MAX_val. unfold ELEM_BITS. lia.
  - simpl. lia.
Defined.

(** ** Setting a range *)

Lemma bitmap_set_bit_cnt b idx v b' :
  bitmap_set b idx v = Ret b' -> bit_cnt b' = bit_cnt b.
Proof.
  unfold bitmap_set. intros H. apply bind_Ret_inv in H as (_ & _ & H).
  injection H as <-. destruct v; reflexivity.
Qed.

(** A loop that has to write the bit at index [N] panics there. *)
Lemma set_multiple_loop_over (n : nat) : forall b start i v,
  0 <= start -> 0 <= i -> start + i <= bit_cnt b <= SIZE_MAX ->
  bit_cnt b < start + i + Z.of_nat n ->
  set_multiple_loop n b start i v = Panic.
Proof.
  induction n as [| n IH]; intros b start i v Hs Hi Hle Hgt; [lia |].
  simpl. rewrite wrap_small by lia.
  destruct (Z.eq_dec (start + i) (bit_cnt b)) as [Heq | Hne].
  - unfold bitmap_set. rewrite ASSERT_false by (apply Z.ltb_ge; lia).
    reflexivity.
  - destruct (bitmap_set b (start + i) v) as [b1 | |] eqn:Hset;
      [| reflexivity |].
    + simpl. apply bitmap_set_bit_cnt in Hset.
      apply IH; try lia.
    + unfold bitmap_set in Hset.
      rewrite ASSERT_true in Hset by (apply Z.ltb_lt; lia). discriminate.
Qed.

(** X3: [bitmap_set_multiple] on a range that fits in the bitmap gives
    every bit of the range the value and leaves the others; on a range
    that does not fit it panics, also when [start + cnt] overflows the
    word size and passes the assertion. *)
Theorem bitmap_set_multiple_bounds (b : bitmap) (start cnt : Z) (value : bool) :
  wf_bitmap b -> is_size start -> is_size cnt ->
  (start + cnt <= bit_cnt b ->
   exists b',
     bitmap_set_multiple b start cnt value = Ret b' /\ wf_bitmap b' /\
     bitmap_size b' = bitmap_size b /\
     forall k, 0 <= k < bit_cnt b ->
       bitmap_test b' k =
         Ret (if (start <=? k) && (k <? start + cnt) then value
              else bit_at b k)) /\
  (bit_cnt b < start + cnt ->
   bitmap_set_multiple b start cnt value = Panic).
Proof.
  intros Hwf Hs Hc. pose proof Hwf as [[H0 Hmax] _].
  unfold is_size in Hs, Hc. split.
  - intros Hle.
    destruct (bitmap_set_multiple_spec b start cnt value Hwf ltac:(lia)
                ltac:(lia) Hle) as (b' & Heq & Hwf' & Hcnt & Hbits).
    exists b'. repeat split; try assumption; try apply Hwf'.
    intros k Hk. rewrite bitmap_test_in by lia. rewrite Hbits by lia.
    reflexivity.
  - intros Hgt. unfold bitmap_set_multiple.
    destruct (Z.leb_spec start (bit_cnt b)) as [Hsb | ?]; [| reflexivity].
    cbn [ASSERT bind].
    destruct (Z.leb_spec (wrap (start + cnt)) (bit_cnt b)) as [_ | ?];
      [| reflexivity].
    cbn [ASSERT bind].
    apply set_multiple_loop_over; try lia.
Qed.

Lemma bitmap_set_multiple_bounds_witness :
  (exists b',
     bitmap_set_multiple bm_free_5_10 5 3 true = Ret b' /\ wf_bitmap b' /\
     bitmap_size b' = bitmap_size bm_free_5_10 /\
     forall k, 0 <= k < bit_cnt bm_free_5_10 ->
       bitmap_test b' k =
         Ret (if (5 <=? k) && (k <? 5 + 3) then true
              else bit_at bm_free_5_10 k)) /\
  bitmap_set_multiple bm_free_5_10 18 5 true = Panic.
Proof.
  assert (Hwf : wf_bitmap bm_free_5_10).
  { unfold wf_bitmap; simpl. rewrite SIZE_MAX_val. unfold ELEM_BITS. lia. }
  split.
  - apply (bitmap_set_multiple_bounds bm_free_5_10 5 3 true Hwf);
      unfold is_size; simpl; rewrite ?SIZE_MAX_val; lia.
  - apply (bitmap_set_multiple_bounds bm_free_5_10 18 5 true Hwf);
      unfold is_size; simpl; rewrite ?SIZE_MAX_val; lia.
Defined.

(** ** Range predicates *)

Lemma bitmap_contains_true b start cnt v :
  wf_bitmap b -> 0 <= start -> 0 <= cnt -> start + cnt <= bit_cnt b ->
  bitmap_contains b start cnt v = Ret true ->
  exists k, start <= k < start + cnt /\ bit_at b k = v.
Proof.
  intros [[H0 Hmax] _] Hs Hc Hle H. unfold bitmap_contains in H.
  apply bind_Ret_inv in H as (_ & _ & H).
  apply bind_Ret_inv in H as (_ & _ & H).
  apply contains_loop_true in H as (k & Hk & Ht).
  rewrite Z2Nat.id in Hk by lia. rewrite wrap_small in Ht by lia.
  apply bitmap_test_Ret in Ht as [_ Ht].
  exists (start + k). split; [lia | congruence].
Qed.

Lemma bitmap_contains_decides b start cnt v :
  wf_bitmap b -> 0 <= start -> 0 <= cnt -> start + cnt <= bit_cnt b ->
  exists r, bitmap_contains b start cnt v = Ret r /\
    (r = true <-> exists k, start <= k < start + cnt /\ bit_at b k = v) /\
    (r = false <-> run_of b start cnt (negb v)).
Proof.
  intros Hwf Hs Hc Hle.
  destruct (bitmap_contains_in_range b start cnt v Hwf Hs Hc Hle)
    as (r & Hr & Hiff).
  exists r. split; [exact Hr |]. split; [| exact Hiff]. split.
  - intros ->. apply (bitmap_contains_true b start cnt v); assumption.
  - intros (k & Hk & Hbit). destruct r; [reflexivity | exfalso].
    assert (Hrun : run_of b start cnt (negb v)) by (apply Hiff; reflexivity).
    rewrite (Hrun k Hk) in Hbit. destruct v; discriminate.
Qed.

(** X4: on a range that fits in the bitmap, [bitmap_contains] answers
    true exactly when some bit of the range has the value; [bitmap_none]
    is the negation of [bitmap_any] and holds exactly when every bit of
    the range is false; [bitmap_all] holds exactly when every bit of the
    range is true. *)
Theorem range_predicates (b : bitmap) (start cnt : Z) :
  wf_bitmap b -> 0 <= start -> 0 <= cnt -> start + cnt <= bit_cnt b ->
  (forall v, exists r,
     bitmap_contains b start cnt v = Ret r /\
     (r = true <-> exists k, start <= k < start + cnt /\ bit_at b k = v)) /\
  (exists a,
     bitmap_any b start cnt = Ret a /\
     bitmap_none b start cnt = Ret (negb a) /\
     (negb a = true <-> run_of b start cnt false)) /\
  (exists r,
     bitmap_all b start cnt = Ret r /\
     (r = true <-> run_of b start cnt true)).
Proof.
  intros Hwf Hs Hc Hle. split; [| split].
  - intros v.
    destruct (bitmap_contains_decides b start cnt v Hwf Hs Hc Hle)
      as (r & Hr & Ht & _).
    exists r. split; assumption.
  - destruct (bitmap_contains_decides b start cnt true Hwf Hs Hc Hle)
      as (a & Ha & _ & Hf).
    exists a. unfold bitmap_any, bitmap_none. rewrite Ha.
    split; [reflexivity |]. split; [reflexivity |].
    simpl in Hf. rewrite <- Hf. destruct a; simpl; split; congruence.
  - destruct (bitmap_contains_decides b start cnt false Hwf Hs Hc Hle)
      as (c & Hcf & _ & Hf).
    exists (negb c). unfold bitmap_all. rewrite Hcf.
    split; [reflexivity |].
    simpl in Hf. rewrite <- Hf. destruct c; simpl; split; congruence.
Qed.

Lemma range_predicates_witness :
  (forall v, exists r,
     bitmap_contains bm_free_5_10 3 4 v = Ret r /\
     (r = true <-> exists k, 3 <= k < 3 + 4 /\ bit_at bm_free_5_10 k = v)) /\
  (exists a,
     bitmap_any bm_free_5_10 3 4 = Ret a /\
     bitmap_none bm_free_5_10 3 4 = Ret (negb a) /\
     (negb a = true <-> run_of bm_free_5_10 3 4 false)) /\
  (exists r,
     bitmap_all bm_free_5_10 3 4 = Ret r /\
     (r = true <-> run_of bm_free_5_10 3 4 true)).
Proof.
  apply (range_predicates bm_free_5_10 3 4).
  - unfold wf_bitmap; simpl. rewrite SIZE_MAX_val. unfold ELEM_BITS. lia.
  - lia.
  - lia.
  - simpl. lia.
Defined.

(** ** Counting *)

Lemma count_bits_range (n : nat) : forall b i v,
  0 <= count_bits n b i v <= Z.of_nat n.
Proof.
  induction n as [| n IH]; intros b i v; cbn [count_bits]; [lia |].
  specialize (IH b (i + 1) v). destruct (eqb (bit_at b i) v); lia.
Qed.

Lemma count_bits_compl (n : nat) : forall b i v,
  count_bits n b i v + count_bits n b i (negb v) = Z.of_nat n.
Proof.
  induction n as [| n IH]; intros b i v; cbn [count_bits]; [lia |].
  specialize (IH b (i + 1) v). destruct (bit_at b i), v; cbn [eqb negb] in *; lia.
Qed.

Lemma count_bits_app (n m : nat) : forall b i v,
  count_bits (n + m) b i v =
    count_bits n b i v + count_bits m b (i + Z.of_nat n) v.
Proof.
  induction n as [| n IH]; intros b i v.
  - simpl. rewrite Z.add_0_r. reflexivity.
  - cbn [Nat.add count_bits]. rewrite IH.
    replace (i + 1 + Z.of_nat n) with (i + Z.of_nat (S n)) by lia. lia.
Qed.

Lemma count_bits_full (n : nat) : forall b i v,
  count_bits n b i v = Z.of_nat n <->
  (forall k, i <= k < i + Z.of_nat n -> bit_at b k = v).
Proof.
  induction n as [| n IH]; intros b i v.
  - simpl. split; [intros _ k Hk; lia | reflexivity].
  - cbn [count_bits]. pose proof (count_bits_range n b (i + 1) v) as Hr.
    specialize (IH b (i + 1) v). split.
    + intros H k Hk. destruct (eqb_spec (bit_at b i) v) as [Hi | Hi]; [| lia].
      destruct (Z.eq_dec k i) as [-> | Hne]; [assumption |].
      apply IH; lia.
    + intros H. rewrite (H i) by lia. rewrite eqb_reflx.
      assert (count_bits n b (i + 1) v = Z.of_nat n) as ->.
      { apply IH. intros k Hk. apply H. lia. }
      lia.
Qed.

Lemma count_bits_ext (n : nat) : forall b b' i v,
  (forall k, i <= k < i + Z.of_nat n -> bit_at b' k = bit_at b k) ->
  count_bits n b' i v = count_bits n b i v.
Proof.
  induction n as [| n IH]; intros b b' i v H; [reflexivity |].
  cbn [count_bits]. rewrite (H i) by lia.
  rewrite (IH b b' (i + 1) v); [reflexivity |].
  intros k Hk. apply H. lia.
Qed.

Lemma count_loop_spec (n : nat) : forall b start i v acc,
  0 <= start -> 0 <= i -> start + i + Z.of_nat n <= bit_cnt b ->
  bit_cnt b <= SIZE_MAX -> 0 <= acc -> acc + Z.of_nat n <= SIZE_MAX ->
  count_loop n b start i v acc = Ret (acc + count_bits n b (start + i) v).
Proof.
  induction n as [| n IH]; intros b start i v acc Hs Hi Hle Hmax Ha Hacc.
  - simpl. rewrite Z.add_0_r. reflexivity.
  - cbn [count_loop count_bits]. rewrite wrap_small by lia.
    rewrite bitmap_test_in by lia. cbn [bind].
    rewrite IH; try lia.
    + replace (start + (i + 1)) with (start + i + 1) by lia.
      destruct (eqb (bit_at b (start + i)) v).
      * rewrite wrap_small by lia. f_equal. lia.
      * f_equal.
    + destruct (eqb (bit_at b (start + i)) v);
        [rewrite wrap_small by lia |]; lia.
    + destruct (eqb (bit_at b (start + i)) v);
        [rewrite wrap_small by lia |]; lia.
Qed.

Lemma bitmap_count_spec b start cnt v :
  wf_bitmap b -> 0 <= start -> 0 <= cnt -> start + cnt <= bit_cnt b ->
  bitmap_count b start cnt v = Ret (count_bits (Z.to_nat cnt) b start v).
Proof.
  intros [[H0 Hmax] _] Hs Hc Hle. unfold bitmap_count.
  rewrite ASSERT_true by (apply Z.leb_le; lia). cbn [bind].
  rewrite wrap_small by lia.
  rewrite ASSERT_true by (apply Z.leb_le; lia). cbn [bind].
  rewrite count_loop_spec by lia.
  rewrite Z.add_0_r. reflexivity.
Qed.

(** X5: on a range that fits in the bitmap, the numbers of true and of
    false bits counted by [bitmap_count] add up to [cnt]; the count for a
    value is [cnt] exactly when every bit of the range has it, and 0
    exactly when [bitmap_contains] finds none. *)
Theorem bitmap_count_complement (b : bitmap) (start cnt : Z) (value : bool) :
  wf_bitmap b -> 0 <= start -> 0 <= cnt -> start + cnt <= bit_cnt b ->
  exists n m,
    bitmap_count b start cnt value = Ret n /\
    bitmap_count b start cnt (negb value) = Ret m /\
    0 <= n /\ 0 <= m /\ n + m = cnt /\
    (n = cnt <-> run_of b start cnt value) /\
    (n = 0 <-> bitmap_contains b start cnt value = Ret false).
Proof.
  intros Hwf Hs Hc Hle.
  exists (count_bits (Z.to_nat cnt) b start value),
         (count_bits (Z.to_nat cnt) b start (negb value)).
  rewrite !bitmap_count_spec by assumption.
  pose proof (count_bits_range (Z.to_nat cnt) b start value) as Hn.
  pose proof (count_bits_range (Z.to_nat cnt) b start (negb value)) as Hm.
  pose proof (count_bits_compl (Z.to_nat cnt) b start value) as Hsum.
  pose proof (count_bits_full (Z.to_nat cnt) b start value) as Hfull.
  pose proof (count_bits_full (Z.to_nat cnt) b start (negb value)) as Hfull'.
  rewrite Z2Nat.id in * by lia. fold (run_of b start cnt value) in Hfull.
  fold (run_of b start cnt (negb value)) in Hfull'.
  split; [reflexivity |]. split; [reflexivity |].
  split; [lia |]. split; [lia |]. split; [lia |]. split; [exact Hfull |].
  split.
  - intros H.
    destruct (bitmap_contains_decides b start cnt value Hwf Hs Hc Hle)
      as (r & -> & _ & Hf).
    f_equal. apply Hf. apply Hfull'. lia.
  - intros H. apply bitmap_contains_false in H as [_ Hrun]; try assumption.
    apply Hfull' in Hrun. lia.
Qed.

Lemma bitmap_count_complement_witness :
  exists n m,
    bitmap_count bm_free_5_10 3 4 true = Ret n /\
    bitmap_count bm_free_5_10 3 4 (negb true) = Ret m /\
    0 <= n /\ 0 <= m /\ n + m = 4 /\
    (n = 4 <-> run_of bm_free_5_10 3 4 true) /\
    (n = 0 <-> bitmap_contains bm_free_5_10 3 4 true = Ret false).
Proof.
  apply (bitmap_count_complement bm_free_5_10 3 4 true).
  - unfold wf_bitmap; simpl. rewrite SIZE_MAX_val. unfold ELEM_BITS. lia.
  - lia.
  - lia.
  - simpl. lia.
Defined.

(** X6: [bitmap_count] is additive over adjacent ranges: the count over
    [cnt1 + cnt2] bits is the count over the first [cnt1] plus the count
    over the [cnt2] that follow. *)
Theorem bitmap_count_split (b : bitmap) (start cnt1 cnt2 : Z) (value : bool) :
  wf_bitmap b -> 0 <= start -> 0 <= cnt1 -> 0 <= cnt2 ->
  start + cnt1 + cnt2 <= bit_cnt b ->
  exists n1 n2,
    bitmap_count b start cnt1 value = Ret n1 /\
    bitmap_count b (start + cnt1) cnt2 value = Ret n2 /\
    bitmap_count b start (cnt1 + cnt2) value = Ret (n1 + n2).
Proof.
  intros Hwf Hs H1 H2 Hle.
  exists (count_bits (Z.to_nat cnt1) b start value),
         (count_bits (Z.to_nat cnt2) b (start + cnt1) value).
  rewrite !bitmap_count_spec by (assumption || lia).
  repeat split. f_equal.
  rewrite Z2Nat.inj_add, count_bits_app by lia.
  rewrite Z2Nat.id by lia. reflexivity.
Qed.

Lemma bitmap_count_split_witness :
  exists n1 n2,
    bitmap_count bm_free_5_10 3 4 false = Ret n1 /\
    bitmap_count bm_free_5_10 (3 + 4) 6 false = Ret n2 /\
    bitmap_count bm_free_5_10 3 (4 + 6) false = Ret (n1 + n2).
Proof.
  apply (bitmap_count_split bm_free_5_10 3 4 6 false).
  - unfold wf_bitmap; simpl. rewrite SIZE_MAX_val. unfold ELEM_BITS. lia.
  - lia.
  - lia.
  - lia.
  - simpl. lia.
Defined.

(** X7: after [bitmap_set_multiple] on a range that fits, [bitmap_count]
    finds the whole range at the value and [bitmap_contains] finds no bit
    of the other value in it, while the counts over any range that does
    not meet it are what they were. *)
Theorem set_multiple_then_count (b : bitmap) (start cnt : Z) (value : bool)
  (s c : Z) (v : bool) :
  wf_bitmap b -> 0 <= start -> 0 <= cnt -> start + cnt <= bit_cnt b ->
  0 <= s -> 0 <= c -> s + c <= bit_cnt b ->
  s + c <= start \/ start + cnt <= s ->
  exists b',
    bitmap_set_multiple b start cnt value = Ret b' /\
    bitmap_count b' start cnt value = Ret cnt /\
    bitmap_contains b' start cnt (negb value) = Ret false /\
    bitmap_count b' s c v = bitmap_count b s c v.
Proof.
  intros Hwf Hs Hc Hle Hs' Hc' Hle' Hdisj.
  destruct (bitmap_set_multiple_spec b start cnt value Hwf Hs Hc Hle)
    as (b' & Heq & Hwf' & Hcnt & Hbits).
  exists b'. split; [exact Heq |].
  assert (Hrun : run_of b' start cnt value).
  { intros k Hk. rewrite Hbits by lia.
    destruct (Z.leb_spec start k), (Z.ltb_spec k (start + cnt));
      simpl; try reflexivity; lia. }
  rewrite !bitmap_count_spec by (assumption || lia).
  split; [| split].
  - f_equal. rewrite <- (Z2Nat.id cnt) at 2 by lia.
    apply count_bits_full. rewrite Z2Nat.id by lia. exact Hrun.
  - destruct (bitmap_contains_decides b' start cnt (negb value) Hwf' Hs Hc
                ltac:(lia)) as (r & -> & _ & Hf).
    f_equal. apply Hf. rewrite negb_involutive. exact Hrun.
  - f_equal. apply count_bits_ext. intros k Hk.
    rewrite Z2Nat.id in Hk by lia. rewrite Hbits by lia.
    destruct (Z.leb_spec start k), (Z.ltb_spec k (start + cnt));
      simpl; try reflexivity; lia.
Qed.

Lemma set_multiple_then_count_witness :
  exists b',
    bitmap_set_multiple bm_free_5_10 5 3 true = Ret b' /\
    bitmap_count b' 5 3 true = Ret 3 /\
    bitmap_contains b' 5 3 (negb true) = Ret false /\
    bitmap_count b' 8 12 false = bitmap_count bm_free_5_10 8 12 false.
Proof.
  apply (set_multiple_then_count bm_free_5_10 5 3 true 8 12 false).
  - unfold wf_bitmap; simpl. rewrite SIZE_MAX_val. unfold ELEM_BITS. lia.
  - lia.
  - lia.
  - simpl. lia.
  - lia.
  - lia.
  - simpl. lia.
  - right. lia.
Defined.

(** X8: [bitmap_set_all] gives every bit of the bitmap the value,
    whatever the elements held before: [bitmap_test] answers it at every
    index and [bitmap_count] counts all [N] bits. *)
Theorem bitmap_set_all_uniform (b : bitmap) (value : bool) :
  wf_bitmap b ->
  exists b',
    bitmap_set_all b value = Ret b' /\ bitmap_size b' = bitmap_size b /\
    (forall k, 0 <= k < bit_cnt b -> bitmap_test b' k = Ret value) /\
    bitmap_count b' 0 (bit_cnt b) value = Ret (bit_cnt b).
Proof.
  intros Hwf. pose proof Hwf as [[H0 Hmax] _].
  unfold bitmap_set_all, bitmap_size.
  destruct (bitmap_set_multiple_spec b 0 (bit_cnt b) value Hwf ltac:(lia)
              ltac:(lia) ltac:(lia)) as (b' & Heq & Hwf' & Hcnt & Hbits).
  exists b'. split; [exact Heq |]. split; [exact Hcnt |].
  assert (Hall : forall k, 0 <= k < bit_cnt b -> bit_at b' k = value).
  { intros k Hk. rewrite Hbits by lia.
    destruct (Z.leb_spec 0 k), (Z.ltb_spec k (0 + bit_cnt b));
      simpl; try reflexivity; lia. }
  split.
  - intros k Hk. rewrite bitmap_test_in by lia. f_equal. apply Hall. exact Hk.
  - rewrite bitmap_count_spec by (assumption || lia).
    f_equal. rewrite <- (Z2Nat.id (bit_cnt b)) at 2 by lia.
    apply count_bits_full. rewrite Z2Nat.id by lia.
    intros k Hk. apply Hall. lia.
Qed.

Lemma bitmap_set_all_uniform_witness :
  exists b',
    bitmap_set_all bm_free_5_10 false = Ret b' /\
    bitmap_size b' = bitmap_size bm_free_5_10 /\
    (forall k, 0 <= k < bit_cnt bm_free_5_10 -> bitmap_test b' k = Ret false) /\
    bitmap_count b' 0 (bit_cnt bm_free_5_10) false
      = Ret (bit_cnt bm_free_5_10).
Proof.
  apply (bitmap_set_all_uniform bm_free_5_10 false).
  unfold wf_bitmap; simpl. rewrite SIZE_MAX_val. unfold ELEM_BITS. lia.
Defined.

(** * Further properties of the scanner *)

(** ** What first fit and next fit return *)

Lemma bitmap_contains_true_lt b start cnt v :
  0 <= start -> bit_cnt b <= SIZE_MAX ->
  bitmap_contains b start cnt v = Ret true -> start < bit_cnt b.
Proof.
  intros Hs Hmax H. unfold bitmap_contains in H.
  apply bind_Ret_inv in H as (u & Hsb & H).
  apply ASSERT_Ret_inv, Z.leb_le in Hsb.
  apply bind_Ret_inv in H as (_ & _ & H).
  destruct (Z.to_nat cnt) as [| n]; [discriminate |].
  simpl in H. apply bind_Ret_inv in H as (t & Ht & _).
  rewrite Z.add_0_r, wrap_small in Ht by lia.
  apply bitmap_test_Ret in Ht as [Hlt _]. exact Hlt.
Qed.

Lemma search_loop_sound (fuel : nat) : forall b cnt value hi i j,
  wf_bitmap b -> 0 <= cnt -> 0 <= i ->
  search_loop fuel b cnt value hi i = Ret (Some j) ->
  i <= j <= hi /\ j + cnt <= bit_cnt b /\ run_of b j cnt value.
Proof.
  induction fuel as [| fuel IH]; intros b cnt value hi i j Hwf Hc Hi H;
    [discriminate |].
  pose proof Hwf as [[H0 Hmax] _].
  simpl in H. destruct (Z.leb_spec i hi) as [Hle | ?]; [| discriminate].
  apply bind_Ret_inv in H as (c & Hcont & H). destruct c; simpl in H.
  - apply bitmap_contains_true_lt in Hcont; [| assumption | assumption].
    rewrite wrap_small in H by lia.
    apply IH in H; [| assumption | assumption | lia].
    destruct H as (? & ? & ?). repeat split; try assumption; lia.
  - injection H as <-.
    apply bitmap_contains_false in Hcont as [Hfit Hrun]; try assumption.
    rewrite negb_involutive in Hrun. repeat split; try assumption; lia.
Qed.

(** X9: an index returned by a first-fit or a next-fit scan, from any
    statics, is the start of [cnt] bits of the value looked for that lie
    inside the bitmap; under first fit it is at or after [start] and the
    cursor is not moved, under next fit the cursor is moved to it. *)
Theorem first_next_fit_sound (fuel : nat) (pal : Z) (st : statics)
  (b : bitmap) (start cnt : Z) (value : bool) (idx : Z) (st' : statics) :
  wf_bitmap b -> wf_statics st -> 0 <= start -> 0 <= cnt ->
  pal = FIRST_FIT \/ pal = NEXT_FIT ->
  bitmap_scan fuel pal st b start cnt value = Ret (idx, st') ->
  idx <> BITMAP_ERROR ->
  0 <= idx /\ idx + cnt <= bit_cnt b /\ run_of b idx cnt value /\
  (pal = FIRST_FIT -> start <= idx /\ st' = accumulate st cnt) /\
  (pal = NEXT_FIT -> st' = set_latest (accumulate st cnt) idx).
Proof.
  intros Hwf Hst Hs Hc Hpal H Hidx. pose proof Hwf as [[H0 Hmax] _].
  unfold bitmap_scan in H. apply bind_Ret_inv in H as (_ & _ & H).
  destruct (Z.leb_spec cnt (bit_cnt b)) as [Hle | Hgt];
    [| injection H as <- _; contradiction].
  assert (Hlat : 0 <= latest (accumulate st cnt)).
  { unfold accumulate. destruct (check_cnt st <? 3); simpl; apply Hst. }
  destruct Hpal as [-> | ->].
  - change (FIRST_FIT =? 0) with true in H. cbn iota in H.
    unfold first_fit in H. apply bind_Ret_inv in H as (o & Ho & H).
    destruct o as [j |]; injection H as <- <-; [| contradiction].
    apply search_loop_sound in Ho as (Hj & Hfit & Hrun); try assumption.
    repeat split; try assumption; try lia. discriminate.
  - change (NEXT_FIT =? 0) with false in H.
    change (NEXT_FIT =? 1) with true in H. cbn iota in H.
    unfold next_fit in H. apply bind_Ret_inv in H as (o & Ho & H).
    destruct o as [j |].
    + injection H as <- <-.
      apply search_loop_sound in Ho as (Hj & Hfit & Hrun); try assumption.
      repeat split; try assumption; try lia; discriminate.
    + apply bind_Ret_inv in H as (o & Ho' & H).
      destruct o as [j |]; injection H as <- <-; [| contradiction].
      apply search_loop_sound in Ho' as (Hj & Hfit & Hrun); try assumption.
      repeat split; try assumption; try lia; discriminate.
Qed.

Lemma first_next_fit_sound_witness :
  0 <= 9 /\ 9 + 1 <= bit_cnt bm_last_free /\ run_of bm_last_free 9 1 false /\
  (NEXT_FIT = FIRST_FIT -> 0 <= 9 /\ mk_statics 9 0 1 = accumulate statics_init 1) /\
  (NEXT_FIT = NEXT_FIT ->
   mk_statics 9 0 1 = set_latest (accumulate statics_init 1) 9).
Proof.
  apply (first_next_fit_sound 30 NEXT_FIT statics_init bm_last_free 0 1 false
           9 (mk_statics 9 0 1)).
  - unfold wf_bitmap; simpl. rewrite SIZE_MAX_val. unfold ELEM_BITS. lia.
  - unfold wf_statics, is_size; simpl. rewrite SIZE_MAX_val. lia.
  - lia.
  - lia.
  - right. reflexivity.
  - vm_compute. reflexivity.
  - vm_compute. discriminate.
Defined.

(** ** What best fit returns *)

Lemma best_fit_run_spec (fuel : nat) : forall b last i i',
  0 <= i < last -> last <= bit_cnt b <= SIZE_MAX ->
  best_fit_run fuel b last i = Ret i' ->
  i < i' <= last /\ forall k, i < k < i' -> bit_at b k = false.
Proof.
  induction fuel as [| fuel IH]; intros b last i i' Hi Hlast H;
    [discriminate |].
  simpl in H. rewrite wrap_small in H by lia.
  destruct (Z.eqb_spec (i + 1) last) as [Heq | Hne].
  - injection H as <-. split; [lia |]. intros k Hk. lia.
  - rewrite bitmap_test_in in H by lia. cbn [bind] in H.
    destruct (bit_at b (i + 1)) eqn:Hbit.
    + injection H as <-. split; [lia |]. intros k Hk. lia.
    + apply IH in H; [| lia | lia]. destruct H as [Hr Hfree].
      split; [lia |]. intros k Hk.
      destruct (Z.eq_dec k (i + 1)) as [-> | Hk1]; [assumption |].
      apply Hfree. lia.
Qed.

Lemma best_fit_run_total (fuel : nat) : forall b last i,
  0 <= i < last -> last <= bit_cnt b <= SIZE_MAX ->
  (Z.to_nat (last - i) <= fuel)%nat ->
  exists i', best_fit_run fuel b last i = Ret i'.
Proof.
  induction fuel as [| fuel IH]; intros b last i Hi Hlast Hf; [lia |].
  simpl. rewrite wrap_small by lia.
  destruct (Z.eqb_spec (i + 1) last) as [Heq | Hne]; [eauto |].
  rewrite bitmap_test_in by lia. cbn [bind].
  destruct (bit_at b (i + 1)); [eauto |].
  apply IH; lia.
Qed.

Lemma best_fit_loop_sound (fuel : nat) : forall b cnt last i idx size r,
  wf_bitmap b -> 0 <= cnt <= SIZE_MAX -> last <= bit_cnt b -> 0 <= i ->
  best_candidate b cnt last idx ->
  best_fit_loop fuel b cnt last i idx size = Ret r ->
  r = BITMAP_ERROR \/
  (0 <= r /\ r + cnt + 1 <= last /\ run_of b r (cnt + 1) false).
Proof.
  induction fuel as [| fuel IH]; intros b cnt last i idx size r Hwf Hc Hlast
    Hi Hidx H; [discriminate |].
  pose proof Hwf as [[H0 Hmax] _].
  simpl in H. destruct (Z.geb_spec i last) as [Hge | Hlt].
  - destruct (Z.eqb_spec idx BEST_NONE) as [-> | Hne].
    + injection H as <-. left. reflexivity.
    + injection H as <-. right. destruct Hidx; [contradiction | assumption].
  - rewrite bitmap_test_in in H by lia. cbn [bind] in H.
    destruct (bit_at b i) eqn:Hbit; simpl in H.
    + apply IH in H; try assumption. apply wrap_range.
    + apply bind_Ret_inv in H as (i' & Hrun & H).
      apply best_fit_run_spec in Hrun as [Hi' Hfree]; [| lia | lia].
      rewrite (wrap_small (i' - 1)) in H by lia.
      rewrite (wrap_small (i' - 1 - i)) in H by lia.
      rewrite bitmap_count_spec in H by (assumption || lia).
      cbn [bind] in H.
      pose proof (count_bits_range (Z.to_nat (i' - 1 - i)) b i false) as Hcb.
      rewrite Z2Nat.id in Hcb by lia.
      assert (Hnew : cnt <= count_bits (Z.to_nat (i' - 1 - i)) b i false ->
                     best_candidate b cnt last i).
      { intros Hfits. right. split; [lia |]. split; [lia |].
        intros k Hk. destruct (Z.eq_dec k i) as [-> | Hne]; [assumption |].
        apply Hfree. lia. }
      destruct (Z.leb_spec cnt (count_bits (Z.to_nat (i' - 1 - i)) b i false))
        as [Hfits | Hsmall].
      * destruct (size =? 0).
        -- apply IH in H; try assumption; try lia. apply Hnew. exact Hfits.
        -- destruct (wrap (size - cnt) >? wrap (_ - cnt)).
           ++ apply IH in H; try assumption; try lia. apply Hnew. exact Hfits.
           ++ apply IH in H; try assumption; lia.
      * apply IH in H; try assumption; lia.
Qed.

Lemma best_fit_loop_total (fuel : nat) : forall b cnt last i idx size,
  wf_bitmap b -> last <= bit_cnt b -> 0 <= i ->
  (Z.to_nat (last - i) < fuel)%nat ->
  exists r, best_fit_loop fuel b cnt last i idx size = Ret r.
Proof.
  induction fuel as [| fuel IH]; intros b cnt last i idx size Hwf Hlast Hi Hf;
    [lia |].
  pose proof Hwf as [[H0 Hmax] _].
  simpl. destruct (Z.geb_spec i last) as [Hge | Hlt].
  - destruct (idx =? BEST_NONE); eauto.
  - rewrite bitmap_test_in by lia. cbn [bind].
    destruct (bit_at b i) eqn:Hbit; simpl.
    + rewrite wrap_small by lia. apply IH; try assumption; lia.
    + destruct (best_fit_run_total fuel b last i ltac:(lia) ltac:(lia)
                  ltac:(lia)) as [i' Hrun].
      rewrite Hrun. cbn [bind].
      apply best_fit_run_spec in Hrun as [Hi' _]; [| lia | lia].
      rewrite (wrap_small (i' - 1)) by lia.
      rewrite (wrap_small (i' - 1 - i)) by lia.
      rewrite bitmap_count_spec by (assumption || lia).
      cbn [bind].
      destruct (cnt <=? _); [| apply IH; try assumption; lia].
      destruct (size =? 0); [apply IH; try assumption; lia |].
      destruct (_ >? _); apply IH; try assumption; lia.
Qed.

(** X10: a best-fit scan always returns, without panic, once the fuel
    exceeds the size of the bitmap; what it returns is [BITMAP_ERROR] or
    the start of at least [cnt + 1] false bits (a run of exactly [cnt] is
    never returned) that end at or before [last = N - cnt]; the statics
    are those left by the accumulation. *)
Theorem best_fit_returns_longer_run (fuel : nat) (st : statics) (b : bitmap)
  (start cnt : Z) (value : bool) :
  wf_bitmap b -> 0 <= start <= bit_cnt b -> is_size cnt ->
  (Z.to_nat (bit_cnt b) < fuel)%nat ->
  exists r,
    bitmap_scan fuel BEST_FIT st b start cnt value
      = Ret (r, accumulate st cnt) /\
    (r = BITMAP_ERROR \/
     (0 <= r /\ r + cnt + 1 <= bit_cnt b - cnt /\
      run_of b r (cnt + 1) false)).
Proof.
  intros Hwf Hs Hc Hf. pose proof Hwf as [[H0 Hmax] _]. unfold is_size in Hc.
  unfold bitmap_scan. rewrite ASSERT_true by (apply Z.leb_le; lia).
  cbn [bind].
  destruct (Z.leb_spec cnt (bit_cnt b)) as [Hle | Hgt].
  2:{ exists BITMAP_ERROR. split; [reflexivity | left; reflexivity]. }
  change (BEST_FIT =? 0) with false. change (BEST_FIT =? 1) with false.
  change (BEST_FIT =? 2) with true. cbn iota.
  rewrite wrap_small by lia. unfold best_fit.
  destruct (best_fit_loop_total fuel b cnt (bit_cnt b - cnt) start BEST_NONE 0
              Hwf ltac:(lia) ltac:(lia) ltac:(lia)) as [r Hr].
  rewrite Hr. cbn [bind]. exists r. split; [reflexivity |].
  apply best_fit_loop_sound in Hr; try assumption; try lia.
  left. reflexivity.
Qed.

Lemma best_fit_returns_longer_run_witness :
  exists r,
    bitmap_scan 30 BEST_FIT statics_init bm_runs_4_2 0 2 false
      = Ret (r, accumulate statics_init 2) /\
    (r = BITMAP_ERROR \/
     (0 <= r /\ r + 2 + 1 <= bit_cnt bm_runs_4_2 - 2 /\
      run_of bm_runs_4_2 r (2 + 1) false)).
Proof.
  apply (best_fit_returns_longer_run 30 statics_init bm_runs_4_2 0 2 false).
  - unfold wf_bitmap; simpl. rewrite SIZE_MAX_val. unfold ELEM_BITS. lia.
  - simpl. lia.
  - unfold is_size. rewrite SIZE_MAX_val. lia.
  - simpl. lia.
Defined.

(** ** What the buddy system returns *)

Lemma buddy_walk_sound fuel : forall b cnt value chk_size bound i offset r,
  wf_bitmap b -> 0 <= i -> 0 <= cnt ->
  (bound = 0 -> cnt <= 1) -> (bound <> 0 -> cnt <= wrap (bound * 2)) ->
  buddy_walk fuel b cnt value chk_size bound i offset = Ret r ->
  r = BITMAP_ERROR \/
  (0 <= r /\ r + cnt <= bit_cnt b /\ bit_at b r = false /\
   (run_of b r cnt value \/ cnt <= 1)).
Proof.
  induction fuel as [| fuel IH];
    intros b cnt value chk_size bound i offset r Hwf Hi Hc Hb0 Hb1 H;
    [discriminate |].
  simpl in H. destruct (i >=? wrap (buddy_max + chk_size)).
  { injection H as <-. left. reflexivity. }
  apply bind_Ret_inv in H as (t & Ht & H).
  apply bitmap_test_Ret in Ht as [Hlt Ht]. destruct t.
  - apply bind_Ret_inv in H as (m & _ & H).
    destruct m as [off |]; [| injection H as <-; left; reflexivity].
    destruct (buddy_round off) as [off' |];
      [| injection H as <-; left; reflexivity].
    destruct (off' >? wrap (bound * 2));
      apply IH in H; try assumption; apply wrap_range.
  - destruct (Z.eqb_spec bound 0) as [Hz | Hnz]; simpl in H.
    + apply bind_Ret_inv in H as (t' & Ht' & H). destruct t'; simpl in H.
      * apply IH in H; try assumption. apply wrap_range.
      * injection H as <-. right. specialize (Hb0 Hz).
        split; [lia |]. split; [lia |]. split; [congruence |].
        right. assumption.
    + apply bind_Ret_inv in H as (c & Hcont & H). destruct c; simpl in H.
      * apply IH in H; try assumption. apply wrap_range.
      * injection H as <-. right.
        apply bitmap_contains_false in Hcont as [Hle Hrun];
          [| assumption | assumption | apply wrap_range].
        specialize (Hb1 Hnz). rewrite negb_involutive in Hrun.
        split; [lia |]. split; [lia |]. split; [congruence |].
        left. intros k Hk. apply Hrun. lia.
Qed.

Lemma buddy_bound_sound fuel : forall b cnt value chk_size bound i r,
  wf_bitmap b -> 0 <= i -> 0 <= cnt <= bound -> bound_ladder bound ->
  buddy_bound fuel b cnt value chk_size bound i = Ret r ->
  r = BITMAP_ERROR \/
  (0 <= r /\ r + cnt <= bit_cnt b /\ bit_at b r = false /\
   (run_of b r cnt value \/ cnt <= 1)).
Proof.
  induction fuel as [| fuel IH];
    intros b cnt value chk_size bound i r Hwf Hi Hc Hlad H; [discriminate |].
  simpl in H. destruct (bound_ladder_half bound Hlad) as (Hlad' & Hz & Hnz).
  destruct (Z.gtb_spec cnt (bound / 2)) as [Hgt | Hle].
  - apply buddy_walk_sound in H; try assumption; lia.
  - apply IH in H; try assumption. lia.
Qed.

Lemma buddy_system_result fuel st b cnt value r st' :
  wf_bitmap b -> 0 <= check_size st -> 0 <= cnt ->
  buddy_system fuel st b cnt value = Ret (r, st') ->
  st' = snd (buddy_start st) /\
  (r = BITMAP_ERROR \/
   (0 <= r /\ r + cnt <= bit_cnt b /\ cnt <= buddy_max /\
    bit_at b r = false /\ (run_of b r cnt value \/ cnt <= 1))).
Proof.
  intros Hwf Hsz Hc H. split; [apply (buddy_system_statics _ _ _ _ _ _ _ H) |].
  unfold buddy_system in H.
  destruct (buddy_start st) as [i st1] eqn:Hstart.
  assert (Hi : 0 <= i).
  { unfold buddy_start in Hstart.
    destruct (check_cnt st <? 3); injection Hstart as <- _; lia. }
  destruct (Z.gtb_spec cnt buddy_max) as [? | Hm];
    [injection H as <- _; left; reflexivity |].
  apply bind_Ret_inv in H as (r' & Hr & H). injection H as <- _.
  apply buddy_bound_sound in Hr; try assumption.
  - destruct Hr as [? | (? & ? & ? & ?)]; [left; assumption | right].
    repeat split; assumption.
  - unfold buddy_max in Hm. lia.
  - left. reflexivity.
Qed.

(** X11: an index returned by a buddy scan lies with its [cnt <= 512]
    bits inside the bitmap and is that of a false bit, whatever the value
    looked for; the [cnt] bits from it all have the value looked for,
    except that a scan for one bit does not look at the value at all.  The
    statics are those left by the accumulation and the call counter. *)
Theorem buddy_system_sound (fuel : nat) (st : statics) (b : bitmap)
  (start cnt : Z) (value : bool) (idx : Z) (st' : statics) :
  wf_bitmap b -> wf_statics st -> 0 <= start -> 0 <= cnt ->
  bitmap_scan fuel BUDDY_SYSTEM st b start cnt value = Ret (idx, st') ->
  idx <> BITMAP_ERROR ->
  0 <= idx /\ idx + cnt <= bit_cnt b /\ cnt <= buddy_max /\
  bit_at b idx = false /\
  (run_of b idx cnt value \/ cnt = 1) /\
  st' = snd (buddy_start (accumulate st cnt)).
Proof.
  intros Hwf Hst Hs Hc H Hidx.
  unfold bitmap_scan in H. apply bind_Ret_inv in H as (_ & _ & H).
  destruct (Z.leb_spec cnt (bit_cnt b)) as [Hle | Hgt];
    [| injection H as <- _; contradiction].
  change (BUDDY_SYSTEM =? 0) with false in H.
  change (BUDDY_SYSTEM =? 1) with false in H.
  change (BUDDY_SYSTEM =? 2) with false in H.
  change (BUDDY_SYSTEM =? 3) with true in H. cbn iota in H.
  assert (Hsz : 0 <= check_size (accumulate st cnt)).
  { unfold accumulate. destruct (check_cnt st <? 3); simpl;
      [apply wrap_range | apply Hst]. }
  apply buddy_system_result in H as [-> Hr]; try assumption.
  destruct Hr as [? | (? & ? & ? & ? & Hrun)]; [contradiction |].
  repeat split; try assumption.
  destruct Hrun as [Hrun | Hone]; [left; assumption |].
  destruct (Z.eq_dec cnt 1) as [-> | Hne]; [right; reflexivity |].
  left. intros k Hk. lia.
Qed.

Lemma buddy_system_sound_witness :
  0 <= 12 /\ 12 + 2 <= bit_cnt bm_two_runs /\ 2 <= buddy_max /\
  bit_at bm_two_runs 12 = false /\
  (run_of bm_two_runs 12 2 false \/ 2 = 1) /\
  mk_statics 0 1 2 = snd (buddy_start (accumulate statics_init 2)).
Proof.
  apply (buddy_system_sound 30 statics_init bm_two_runs 0 2 false 12
           (mk_statics 0 1 2)).
  - unfold wf_bitmap; simpl. rewrite SIZE_MAX_val. unfold ELEM_BITS. lia.
  - unfold wf_statics, is_size; simpl. rewrite SIZE_MAX_val. lia.
  - lia.
  - lia.
  - vm_compute. reflexivity.
  - vm_compute. discriminate.
Defined.

(** ** Allocation *)

(** Whatever the strategy, an index returned by a scan for false bits is
    the start of [cnt] false bits inside the bitmap. *)
Lemma bitmap_scan_free_run fuel pal st b start cnt idx st' :
  wf_bitmap b -> wf_statics st -> 0 <= start -> 0 <= cnt ->
  bitmap_scan fuel pal st b start cnt false = Ret (idx, st') ->
  idx <> BITMAP_ERROR ->
  0 <= idx /\ idx + cnt <= bit_cnt b /\ run_of b idx cnt false.
Proof.
  intros Hwf Hst Hs Hc H Hidx. pose proof Hwf as [[H0 Hmax] _].
  unfold bitmap_scan in H. apply bind_Ret_inv in H as (_ & _ & H).
  destruct (Z.leb_spec cnt (bit_cnt b)) as [Hle | Hgt];
    [| injection H as <- _; contradiction].
  assert (Hlat : 0 <= latest (accumulate st cnt)).
  { unfold accumulate. destruct (check_cnt st <? 3); simpl; apply Hst. }
  rewrite wrap_small in H by lia.
  destruct (Z.eqb_spec pal 0) as [-> | Hp0].
  { unfold first_fit in H. apply bind_Ret_inv in H as (o & Ho & H).
    destruct o as [j |]; injection H as <- _; [| contradiction].
    apply search_loop_sound in Ho as (Hj & Hfit & Hrun); try assumption.
    repeat split; try assumption; lia. }
  destruct (Z.eqb_spec pal 1) as [-> | Hp1].
  { unfold next_fit in H. apply bind_Ret_inv in H as (o & Ho & H).
    destruct o as [j |].
    - injection H as <- _.
      apply search_loop_sound in Ho as (Hj & Hfit & Hrun); try assumption.
      repeat split; try assumption; lia.
    - apply bind_Ret_inv in H as (o & Ho' & H).
      destruct o as [j |]; injection H as <- _; [| contradiction].
      apply search_loop_sound in Ho' as (Hj & Hfit & Hrun); try assumption.
      repeat split; try assumption; lia. }
  destruct (Z.eqb_spec pal 2) as [-> | Hp2].
  { unfold best_fit in H. apply bind_Ret_inv in H as (r' & Hr & H).
    injection H as <- _.
    apply best_fit_loop_sound in Hr; try assumption; try lia.
    - destruct Hr as [? | (Hr0 & Hr1 & Hrun)]; [contradiction |].
      repeat split; try lia. intros k Hk. apply Hrun. lia.
    - left. reflexivity. }
  destruct (Z.eqb_spec pal 3) as [-> | Hp3];
    [| injection H as <- _; contradiction].
  assert (Hsz : 0 <= check_size (accumulate st cnt)).
  { unfold accumulate. destruct (check_cnt st <? 3); simpl;
      [apply wrap_range | apply Hst]. }
  apply buddy_system_result in H as [_ Hr]; try assumption.
  destruct Hr as [? | (Hi0 & Hfit & _ & Hbit & Hrun)]; [contradiction |].
  repeat split; try assumption.
  destruct Hrun as [Hrun | Hone]; [assumption |].
  intros k Hk. assert (k = idx) as -> by lia. assumption.
Qed.

Lemma wf_statics_accumulate st cnt :
  wf_statics st -> wf_statics (accumulate st cnt).
Proof.
  intros (Hl & Hc & Hs). unfold accumulate.
  destruct (check_cnt st <? 3).
  - split; [exact Hl |]. split; [exact Hc |]. apply wrap_range.
  - split; [exact Hl |]. split; [exact Hc | exact Hs].
Qed.

(** The statics stay machine words; a cursor moved by next fit points
    inside the bitmap. *)
Lemma bitmap_scan_wf_statics fuel pal st b start cnt value r st' :
  wf_bitmap b -> wf_statics st -> 0 <= start -> 0 <= cnt ->
  bitmap_scan fuel pal st b start cnt value = Ret (r, st') ->
  wf_statics st'.
Proof.
  intros Hwf Hst Hs Hc H. pose proof Hwf as [[H0 Hmax] _].
  pose proof (wf_statics_accumulate st cnt Hst) as Hacc.
  unfold bitmap_scan in H. apply bind_Ret_inv in H as (_ & _ & H).
  destruct (cnt <=? bit_cnt b); [| injection H as _ <-; assumption].
  assert (Hset : forall j, 0 <= j /\ j + cnt <= bit_cnt b ->
            wf_statics (set_latest (accumulate st cnt) j)).
  { intros j Hj. destruct Hacc as (_ & Hcc & Hsz).
    split; [unfold is_size; simpl; lia |]. split; [exact Hcc | exact Hsz]. }
  destruct (pal =? 0).
  { unfold first_fit in H. apply bind_Ret_inv in H as (o & _ & H).
    destruct o; injection H as _ <-; assumption. }
  destruct (pal =? 1).
  { unfold next_fit in H. apply bind_Ret_inv in H as (o & Ho & H).
    destruct o as [j |].
    - injection H as _ <-. apply Hset.
      assert (Hlat : 0 <= latest (accumulate st cnt)) by apply Hacc.
      apply (search_loop_in_range _ _ _ _ _ _ _ Hwf Hc Hlat Ho).
    - apply bind_Ret_inv in H as (o & Ho' & H).
      destruct o as [j |]; injection H as _ <-; [| assumption].
      apply Hset. apply (search_loop_in_range _ _ _ _ _ _ _ Hwf Hc Hs Ho'). }
  destruct (pal =? 2).
  { unfold best_fit in H. apply bind_Ret_inv in H as (o & _ & H).
    injection H as _ <-. assumption. }
  destruct (pal =? 3); [| injection H as _ <-; assumption].
  apply buddy_system_statics in H. subst st'. unfold buddy_start.
  destruct (check_cnt (accumulate st cnt) <? 3); [| assumption].
  destruct Hacc as (Hl & _ & Hsz).
  split; [exact Hl |]. split; [apply wrap_range | exact Hsz].
Qed.

Lemma scan_and_flip_inv fuel pal st b start cnt value idx st' b' :
  bitmap_scan_and_flip fuel pal st b start cnt value = Ret (idx, st', b') ->
  idx <> BITMAP_ERROR ->
  bitmap_scan fuel pal st b start cnt value = Ret (idx, st') /\
  bitmap_set_multiple b idx cnt (negb value) = Ret b'.
Proof.
  unfold bitmap_scan_and_flip. intros H Hidx.
  apply bind_Ret_inv in H as ([i s] & Hscan & H).
  destruct (Z.eqb_spec i BITMAP_ERROR) as [-> | Hne]; cbn [negb] in H.
  - injection H as <- _ _. contradiction.
  - apply bind_Ret_inv in H as (b1 & Hset & H).
    injection H as <- <- <-. split; assumption.
Qed.

(** X12: two successive allocations of free units never overlap, whatever
    the strategies in force: if [bitmap_scan_and_flip] for [cnt1 >= 1]
    false bits returns [idx1], and on the bitmap and statics it leaves a
    second one for [cnt2 >= 1] false bits returns [idx2], the ranges
    [idx1, idx1 + cnt1) and [idx2, idx2 + cnt2) are disjoint, and both lie
    inside the bitmap. *)
Theorem allocations_do_not_overlap (fuel1 fuel2 : nat) (pal1 pal2 : Z)
  (st st1 st2 : statics) (b b1 b2 : bitmap)
  (start1 cnt1 idx1 start2 cnt2 idx2 : Z) :
  wf_bitmap b -> wf_statics st ->
  0 <= start1 -> 0 <= start2 -> 1 <= cnt1 -> 1 <= cnt2 ->
  bitmap_scan_and_flip fuel1 pal1 st b start1 cnt1 false
    = Ret (idx1, st1, b1) ->
  idx1 <> BITMAP_ERROR ->
  bitmap_scan_and_flip fuel2 pal2 st1 b1 start2 cnt2 false
    = Ret (idx2, st2, b2) ->
  idx2 <> BITMAP_ERROR ->
  (idx1 + cnt1 <= idx2 \/ idx2 + cnt2 <= idx1) /\
  idx1 + cnt1 <= bit_cnt b /\ idx2 + cnt2 <= bit_cnt b.
Proof.
  intros Hwf Hst Hs1 Hs2 Hc1 Hc2 H1 Hi1 H2 Hi2.
  apply scan_and_flip_inv in H1 as [Hscan1 Hset1]; [| assumption].
  apply scan_and_flip_inv in H2 as [Hscan2 Hset2]; [| assumption].
  assert (Hc1' : 0 <= cnt1) by lia.
  pose proof (bitmap_scan_wf_statics _ _ _ _ _ _ _ _ _ Hwf Hst Hs1
                Hc1' Hscan1) as Hst1.
  apply bitmap_scan_free_run in Hscan1 as (Hidx1 & Hfit1 & _);
    try assumption; try lia.
  destruct (bitmap_set_multiple_spec b idx1 cnt1 (negb false) Hwf Hidx1
              ltac:(lia) Hfit1) as (b1' & Heq & Hwf1 & Hcnt1 & Hbits1).
  rewrite Heq in Hset1. injection Hset1 as <-.
  apply bitmap_scan_free_run in Hscan2 as (Hidx2 & Hfit2 & Hrun2);
    try assumption; try lia.
  rewrite Hcnt1 in Hfit2. split; [| split; assumption].
  destruct (Z.le_gt_cases (idx1 + cnt1) idx2) as [? | Hlt1]; [left; assumption |].
  destruct (Z.le_gt_cases (idx2 + cnt2) idx1) as [? | Hlt2]; [right; assumption |].
  exfalso.
  pose proof (Hrun2 (Z.max idx1 idx2) ltac:(lia)) as Hfree.
  rewrite Hbits1 in Hfree by lia.
  destruct (Z.leb_spec idx1 (Z.max idx1 idx2)),
    (Z.ltb_spec (Z.max idx1 idx2) (idx1 + cnt1)); simpl in Hfree;
    try discriminate; lia.
Qed.

Lemma allocations_do_not_overlap_witness :
  (5 + 3 <= 8 \/ 8 + 2 <= 5) /\
  5 + 3 <= bit_cnt bm_free_5_10 /\ 8 + 2 <= bit_cnt bm_free_5_10.
Proof.
  apply (allocations_do_not_overlap 30 30 FIRST_FIT NEXT_FIT
           statics_init (mk_statics 0 0 3) (mk_statics 8 0 5)
           bm_free_5_10 (mk_bitmap 20 [1047807]) (mk_bitmap 20 [1048575])
           0 3 5 0 2 8).
  - unfold wf_bitmap; simpl. rewrite SIZE_MAX_val. unfold ELEM_BITS. lia.
  - unfold wf_statics, is_size; simpl. rewrite SIZE_MAX_val. lia.
  - lia.
  - lia.
  - lia.
  - lia.
  - vm_compute. reflexivity.
  - vm_compute. discriminate.
  - vm_compute. reflexivity.
  - vm_compute. discriminate.
Defined.

(** X13: a request that cannot be served is answered at once, with any
    fuel and without a panic: a scan for more bits than the bitmap holds
    returns [BITMAP_ERROR] under every strategy code, and so does a buddy
    scan for more than 512 bits; [bitmap_scan_and_flip] then returns
    [BITMAP_ERROR] with the bitmap it was given. *)
Theorem oversize_request (fuel : nat) (pal : Z) (st : statics) (b : bitmap)
  (start cnt : Z) (value : bool) :
  start <= bit_cnt b ->
  bit_cnt b < cnt \/ (pal = BUDDY_SYSTEM /\ buddy_max < cnt) ->
  exists st',
    bitmap_scan fuel pal st b start cnt value = Ret (BITMAP_ERROR, st') /\
    bitmap_scan_and_flip fuel pal st b start cnt value
      = Ret (BITMAP_ERROR, st', b) /\
    latest st' = latest st /\
    check_size st' = check_size (accumulate st cnt).
Proof.
  intros Hs Hover.
  assert (Hlat : latest (accumulate st cnt) = latest st).
  { unfold accumulate. destruct (check_cnt st <? 3); reflexivity. }
  assert (Hscan : exists st',
            bitmap_scan fuel pal st b start cnt value = Ret (BITMAP_ERROR, st') /\
            latest st' = latest st /\
            check_size st' = check_size (accumulate st cnt)).
  { unfold bitmap_scan. rewrite ASSERT_true by (apply Z.leb_le; lia).
    cbn [bind].
    destruct (Z.leb_spec cnt (bit_cnt b)) as [Hle | Hgt].
    - destruct Hover as [? | [-> Hbig]]; [lia |].
      change (BUDDY_SYSTEM =? 0) with false.
      change (BUDDY_SYSTEM =? 1) with false.
      change (BUDDY_SYSTEM =? 2) with false.
      change (BUDDY_SYSTEM =? 3) with true. cbn iota.
      unfold buddy_system.
      destruct (buddy_start (accumulate st cnt)) as [i st1] eqn:Hstart.
      destruct (Z.gtb_spec cnt buddy_max) as [_ | ?]; [| lia].
      exists st1. split; [reflexivity |].
      unfold buddy_start in Hstart.
      destruct (check_cnt (accumulate st cnt) <? 3);
        injection Hstart as _ <-; simpl; split; (reflexivity || assumption).
    - exists (accumulate st cnt). split; [reflexivity |].
      split; [assumption | reflexivity]. }
  destruct Hscan as (st' & Hscan & Hl & Hsz).
  exists st'. split; [exact Hscan |]. split; [| split; assumption].
  unfold bitmap_scan_and_flip. rewrite Hscan. cbn [bind].
  rewrite Z.eqb_refl. reflexivity.
Qed.

Lemma oversize_request_witness :
  exists st',
    bitmap_scan 0 FIRST_FIT statics_init bm_empty8 0 9 false
      = Ret (BITMAP_ERROR, st') /\
    bitmap_scan_and_flip 0 FIRST_FIT statics_init bm_empty8 0 9 false
      = Ret (BITMAP_ERROR, st', bm_empty8) /\
    latest st' = latest statics_init /\
    check_size st' = check_size (accumulate statics_init 9).
Proof.
  apply (oversize_request 0 FIRST_FIT statics_init bm_empty8 0 9 false).
  - simpl. lia.
  - left. simpl. lia.
Defined.

(** ** Termination *)

Lemma bitmap_test_fuel b idx : bitmap_test b idx <> OutOfFuel.
Proof.
  unfold bitmap_test. destruct (idx <? bit_cnt b); simpl; discriminate.
Qed.

Lemma contains_loop_fuel (n : nat) : forall b start i v,
  contains_loop n b start i v <> OutOfFuel.
Proof.
  induction n as [| n IH]; intros b start i v; simpl; [discriminate |].
  pose proof (bitmap_test_fuel b (wrap (start + i))) as Ht.
  destruct (bitmap_test b (wrap (start + i))) as [t | |]; simpl;
    [| discriminate | contradiction].
  destruct (eqb t v); [discriminate | apply IH].
Qed.

Lemma bitmap_contains_fuel b start cnt v :
  bitmap_contains b start cnt v <> OutOfFuel.
Proof.
  unfold bitmap_contains.
  destruct (start <=? bit_cnt b); simpl; [| discriminate].
  destruct (wrap (start + cnt) <=? bit_cnt b); simpl; [| discriminate].
  apply contains_loop_fuel.
Qed.

Lemma search_loop_terminates (fuel : nat) : forall b cnt value hi i,
  0 <= i -> 0 <= bit_cnt b <= SIZE_MAX ->
  (Z.to_nat (bit_cnt b + 1 - i) < fuel)%nat ->
  search_loop fuel b cnt value hi i <> OutOfFuel.
Proof.
  induction fuel as [| fuel IH]; intros b cnt value hi i Hi Hn Hf; [lia |].
  simpl. destruct (i <=? hi); [| discriminate].
  pose proof (bitmap_contains_fuel b i cnt (negb value)) as Hc.
  destruct (bitmap_contains b i cnt (negb value)) as [c | |] eqn:Hcont;
    simpl; [| discriminate | contradiction].
  destruct c; simpl; [| discriminate].
  apply bitmap_contains_true_lt in Hcont; [| lia | lia].
  rewrite wrap_small by lia. apply IH; lia.
Qed.

Lemma buddy_measure_terminates (fuel : nat) : forall b chk_size j offset,
  0 <= j -> 0 <= bit_cnt b <= SIZE_MAX ->
  (Z.to_nat (bit_cnt b - j) < fuel)%nat ->
  buddy_measure fuel b chk_size j offset <> OutOfFuel.
Proof.
  induction fuel as [| fuel IH]; intros b chk_size j offset Hj Hn Hf; [lia |].
  simpl. destruct (j >=? wrap (buddy_max + chk_size)); [discriminate |].
  destruct (Z.lt_ge_cases j (bit_cnt b)) as [Hlt | Hge].
  - rewrite bitmap_test_in by lia. cbn [bind].
    destruct (bit_at b j); [| discriminate].
    rewrite wrap_small by lia. apply IH; lia.
  - rewrite bitmap_test_out by lia. discriminate.
Qed.

Lemma buddy_round_range offset p :
  buddy_round offset = Some p -> 1 <= p <= 256 /\ offset <= p.
Proof.
  unfold buddy_round.
  repeat match goal with
         | |- context [?x >? ?y] => destruct (Z.gtb_spec x y)
         end;
    intros Heq; try discriminate; injection Heq as <-; lia.
Qed.

Lemma buddy_walk_terminates (fuel : nat) :
  forall b cnt value chk_size bound i offset,
  0 <= i -> 0 <= bit_cnt b -> bit_cnt b + 512 <= SIZE_MAX ->
  0 <= bound <= 256 ->
  (Z.to_nat (bit_cnt b - i) + 1 < fuel)%nat ->
  buddy_walk fuel b cnt value chk_size bound i offset <> OutOfFuel.
Proof.
  induction fuel as [| fuel IH];
    intros b cnt value chk_size bound i offset Hi Hn Hmax Hb Hf; [lia |].
  simpl. destruct (i >=? wrap (buddy_max + chk_size)); [discriminate |].
  destruct (Z.lt_ge_cases i (bit_cnt b)) as [Hlt | Hge].
  2:{ rewrite bitmap_test_out by lia. discriminate. }
  rewrite bitmap_test_in by lia. cbn [bind].
  assert (Hb2 : wrap (bound * 2) = bound * 2) by (apply wrap_small; lia).
  destruct (bit_at b i).
  - pose proof (buddy_measure_terminates fuel b chk_size i offset Hi
                  ltac:(lia) ltac:(lia)) as Hm.
    destruct (buddy_measure fuel b chk_size i offset) as [m | |];
      simpl; [| discriminate | contradiction].
    destruct m as [off |]; [| discriminate].
    destruct (buddy_round off) as [p |] eqn:Hround; [| discriminate].
    apply buddy_round_range in Hround as [Hp _].
    rewrite Hb2.
    destruct (Z.gtb_spec p (bound * 2)) as [Hgt | Hle].
    + rewrite wrap_small by lia. apply IH; lia.
    + rewrite wrap_small by lia. apply IH; lia.
  - destruct (Z.eqb_spec bound 0) as [Hz | Hnz]; simpl.
    + discriminate.
    + pose proof (bitmap_contains_fuel b i (wrap (bound * 2)) (negb value))
        as Hc.
      destruct (bitmap_contains b i (wrap (bound * 2)) (negb value))
        as [c | |]; simpl; [| discriminate | contradiction].
      destruct c; simpl; [| discriminate].
      rewrite Hb2, wrap_small by lia. apply IH; lia.
Qed.

Lemma buddy_bound_terminates (fuel : nat) :
  forall b cnt value chk_size bound i,
  0 <= i -> 0 <= bit_cnt b -> bit_cnt b + 512 <= SIZE_MAX ->
  1 <= cnt -> 0 <= bound <= 512 ->
  (Z.to_nat bound + Z.to_nat (bit_cnt b - i) + 2 < fuel)%nat ->
  buddy_bound fuel b cnt value chk_size bound i <> OutOfFuel.
Proof.
  induction fuel as [| fuel IH];
    intros b cnt value chk_size bound i Hi Hn Hmax Hc Hb Hf; [lia |].
  simpl.
  assert (Hhalf : 0 <= bound / 2 <= 256).
  { split; [apply Z.div_pos; lia |]. apply Z.div_le_upper_bound; lia. }
  destruct (Z.gtb_spec cnt (bound / 2)) as [Hgt | Hle].
  - apply buddy_walk_terminates; try assumption; lia.
  - assert (Hpos : 0 < bound).
    { destruct (Z.eq_dec bound 0) as [-> | ?]; [| lia].
      change (0 / 2) with 0 in Hle. lia. }
    assert (bound / 2 < bound) by (apply Z.div_lt; lia).
    apply IH; try assumption; lia.
Qed.

(** X14: every scan comes to an end, with an index, [BITMAP_ERROR] or a
    panic, except the buddy scan for zero bits: for a bitmap that ends at
    least 512 below the largest index, a start inside it and statics that
    are machine words, no scan other than a buddy scan with [cnt = 0]
    runs out of fuel once the fuel exceeds [N + 515]. *)
Theorem scan_terminates (fuel : nat) (pal : Z) (st : statics) (b : bitmap)
  (start cnt : Z) (value : bool) :
  wf_bitmap b -> bit_cnt b + 512 <= SIZE_MAX -> wf_statics st ->
  0 <= start -> is_size cnt ->
  pal <> BUDDY_SYSTEM \/ 1 <= cnt ->
  (Z.to_nat (bit_cnt b) + 515 < fuel)%nat ->
  bitmap_scan fuel pal st b start cnt value <> OutOfFuel.
Proof.
  intros Hwf Hroom Hst Hs Hc Hpal Hf. pose proof Hwf as [[H0 Hmax] _].
  unfold is_size in Hc. unfold bitmap_scan.
  destruct (start <=? bit_cnt b); simpl; [| discriminate].
  pose proof (wf_statics_accumulate st cnt Hst) as (Hl & Hcc & Hsz).
  unfold is_size in Hl, Hsz.
  destruct (Z.leb_spec cnt (bit_cnt b)) as [Hle | Hgt]; [| discriminate].
  assert (Hsearch : forall hi i, 0 <= i ->
            search_loop fuel b cnt value hi i <> OutOfFuel).
  { intros hi i Hi. apply search_loop_terminates; lia. }
  destruct (Z.eqb_spec pal 0) as [-> | Hp0].
  { unfold first_fit. specialize (Hsearch (wrap (bit_cnt b - cnt)) start Hs).
    destruct (search_loop _ _ _ _ _ _) as [o | |]; simpl;
      [| discriminate | contradiction].
    destruct o; discriminate. }
  destruct (Z.eqb_spec pal 1) as [-> | Hp1].
  { unfold next_fit.
    pose proof (Hsearch (wrap (bit_cnt b - cnt)) (latest (accumulate st cnt))
                  ltac:(lia)) as H1.
    destruct (search_loop fuel b cnt value (wrap (bit_cnt b - cnt)) _)
      as [o | |]; simpl; [| discriminate | contradiction].
    destruct o; [discriminate |].
    pose proof (Hsearch (latest (accumulate st cnt)) start Hs) as H2.
    destruct (search_loop fuel b cnt value (latest (accumulate st cnt)) _)
      as [o | |]; simpl; [| discriminate | contradiction].
    destruct o; discriminate. }
  destruct (Z.eqb_spec pal 2) as [-> | Hp2].
  { unfold best_fit. rewrite wrap_small by lia.
    destruct (best_fit_loop_total fuel b cnt (bit_cnt b - cnt) start BEST_NONE
                0 Hwf ltac:(lia) Hs ltac:(lia)) as [r ->].
    discriminate. }
  destruct (Z.eqb_spec pal 3) as [-> | Hp3]; [| discriminate].
  destruct Hpal as [? | Hc1]; [contradiction |].
  unfold buddy_system.
  destruct (buddy_start (accumulate st cnt)) as [i st1] eqn:Hstart.
  assert (Hi : 0 <= i).
  { unfold buddy_start in Hstart.
    destruct (check_cnt (accumulate st cnt) <? 3);
      injection Hstart as <- _; lia. }
  destruct (cnt >? buddy_max); [discriminate |].
  pose proof (buddy_bound_terminates fuel b cnt value (check_size st1) 512 i
                Hi H0 Hroom Hc1 ltac:(lia) ltac:(lia)) as Hb.
  destruct (buddy_bound fuel b cnt value (check_size st1) 512 i)
    as [r | |]; simpl; [discriminate | discriminate | contradiction].
Qed.

Lemma scan_terminates_witness :
  bitmap_scan 600 BUDDY_SYSTEM statics_init bm_two_runs 0 2 false <> OutOfFuel.
Proof.
  apply (scan_terminates 600 BUDDY_SYSTEM statics_init bm_two_runs 0 2 false).
  - unfold wf_bitmap; simpl. rewrite SIZE_MAX_val. unfold ELEM_BITS. lia.
  - simpl. rewrite SIZE_MAX_val. lia.
  - unfold wf_statics, is_size; simpl. rewrite SIZE_MAX_val. lia.
  - lia.
  - unfold is_size. rewrite SIZE_MAX_val. lia.
  - right. lia.
  - simpl. lia.
Defined.

Lemma next_fit_cursor_in_range_witness :
  exists r st',
    bitmap_scan 30 NEXT_FIT (mk_statics 7 0 0) bm_free_5_10 0 2 false
      = Ret (r, st') /\
    ((latest (mk_statics 7 0 0) <= r <= bit_cnt bm_free_5_10 - 2 /\
      run_of bm_free_5_10 r 2 false /\
      (forall k, latest (mk_statics 7 0 0) <= k < r ->
                 ~ run_of bm_free_5_10 k 2 false) /\
      st' = set_latest (accumulate (mk_statics 7 0 0) 2) r)
     \/
     ((forall k, latest (mk_statics 7 0 0) <= k <= bit_cnt bm_free_5_10 - 2 ->
                 ~ run_of bm_free_5_10 k 2 false) /\
      0 <= r <= latest (mk_statics 7 0 0) /\ run_of bm_free_5_10 r 2 false /\
      (forall k, 0 <= k < r -> ~ run_of bm_free_5_10 k 2 false) /\
      st' = set_latest (accumulate (mk_statics 7 0 0) 2) r)
     \/
     ((forall k, latest (mk_statics 7 0 0) <= k <= bit_cnt bm_free_5_10 - 2 ->
                 ~ run_of bm_free_5_10 k 2 false) /\
      (forall k, 0 <= k <= latest (mk_statics 7 0 0) ->
                 ~ run_of bm_free_5_10 k 2 false) /\
      r = BITMAP_ERROR /\ st' = accumulate (mk_statics 7 0 0) 2)).
Proof.
  apply (next_fit_cursor_in_range 30 (mk_statics 7 0 0) bm_free_5_10 0 2 false).
  - unfold wf_bitmap; simpl. rewrite SIZE_MAX_val. unfold ELEM_BITS. lia.
  - simpl. lia.
  - simpl. lia.
  - simpl. lia.
  - simpl. lia.
Defined.

(** ** Releasing what was allocated *)

(** X16: allocation followed by release is a round trip: when
    [bitmap_scan_and_flip] for false bits returns an index, under any
    strategy, setting the [cnt] bits from that index back to false gives a
    bitmap of the same size in which [bitmap_test] answers at every index
    what it answered before the allocation. *)
Theorem allocate_then_release (fuel : nat) (pal : Z) (st st' : statics)
  (b b1 : bitmap) (start cnt idx : Z) :
  wf_bitmap b -> wf_statics st -> 0 <= start -> 0 <= cnt ->
  bitmap_scan_and_flip fuel pal st b start cnt false = Ret (idx, st', b1) ->
  idx <> BITMAP_ERROR ->
  exists b2,
    bitmap_set_multiple b1 idx cnt false = Ret b2 /\
    bitmap_size b2 = bitmap_size b /\
    forall k, 0 <= k < bit_cnt b -> bitmap_test b2 k = bitmap_test b k.
Proof.
  intros Hwf Hst Hs Hc H Hidx.
  apply scan_and_flip_inv in H as [Hscan Hset]; [| assumption].
  apply bitmap_scan_free_run in Hscan as (Hi & Hfit & Hrun); try assumption.
  destruct (bitmap_set_multiple_spec b idx cnt (negb false) Hwf Hi Hc Hfit)
    as (b1' & Heq & Hwf1 & Hcnt1 & Hbits1).
  rewrite Heq in Hset. injection Hset as <-.
  destruct (bitmap_set_multiple_spec b1' idx cnt false Hwf1 Hi Hc
              ltac:(lia)) as (b2 & Heq2 & Hwf2 & Hcnt2 & Hbits2).
  exists b2. split; [exact Heq2 |]. unfold bitmap_size.
  split; [congruence |].
  intros k Hk. rewrite !bitmap_test_in by lia. f_equal.
  rewrite Hbits2, Hbits1 by lia.
  destruct (Z.leb_spec idx k), (Z.ltb_spec k (idx + cnt)); simpl;
    try reflexivity.
  symmetry. apply Hrun. lia.
Qed.

Lemma allocate_then_release_witness :
  exists b2,
    bitmap_set_multiple (mk_bitmap 20 [1047807]) 5 3 false = Ret b2 /\
    bitmap_size b2 = bitmap_size bm_free_5_10 /\
    forall k, 0 <= k < bit_cnt bm_free_5_10 ->
      bitmap_test b2 k = bitmap_test bm_free_5_10 k.
Proof.
  apply (allocate_then_release 30 FIRST_FIT statics_init (mk_statics 0 0 3)
           bm_free_5_10 (mk_bitmap 20 [1047807]) 0 3 5).
  - unfold wf_bitmap; simpl. rewrite SIZE_MAX_val. unfold ELEM_BITS. lia.
  - unfold wf_statics, is_size; simpl. rewrite SIZE_MAX_val. lia.
  - lia.
  - lia.
  - vm_compute. reflexivity.
  - vm_compute. discriminate.
Defined.

(** ** The search window of the buddy system *)





(** ** The rounding ladder and the last-element mask *)

(** X18: the ladder of the buddy system rounds a length of 1 to 256 up to
    the next power of two (the least power of two that is not below it),
    and gives up above 256. *)
Theorem buddy_round_power_of_two (offset : Z) :
  (1 <= offset <= 256 ->
   exists k, 0 <= k <= 8 /\ buddy_round offset = Some (2 ^ k) /\
             offset <= 2 ^ k /\ 2 ^ k < 2 * offset) /\
  (256 < offset -> buddy_round offset = None).
Proof.
  split.
  - intros Hoff. unfold buddy_round.
    repeat match goal with
           | |- context [?x >? ?y] => destruct (Z.gtb_spec x y)
           end; try lia;
      [ exists 8 | exists 7 | exists 6 | exists 5 | exists 4 | exists 3
      | exists 2 | exists 1 | exists 0 ];
      (split; [lia |]); (split; [reflexivity |]);
      match goal with
      | |- context [2 ^ ?k] =>
          let v := eval vm_compute in (2 ^ k) in
          change (2 ^ k) with v
      end; lia.
  - intros Hoff. unfold buddy_round.
    destruct (Z.gtb_spec offset 256); [reflexivity | lia].
Qed.

Lemma buddy_round_power_of_two_witness :
  (exists k, 0 <= k <= 8 /\ buddy_round 5 = Some (2 ^ k) /\
             5 <= 2 ^ k /\ 2 ^ k < 2 * 5) /\
  buddy_round 300 = None.
Proof.
  split.
  - apply (buddy_round_power_of_two 5). lia.
  - apply (buddy_round_power_of_two 300). lia.
Defined.

(** X19: [last_mask] has, among the 32 bit positions of an element,
    exactly those set that belong to bits of the bitmap in its last
    element: for an index [idx] in the element that holds bit [N - 1],
    position [idx mod 32] is set in the mask exactly when [idx < N], so
    and-ing the last element with the mask keeps the bits below [N] and
    clears the others. *)
Theorem last_mask_bits (b : bitmap) (idx w : Z) :
  0 < bit_cnt b <= SIZE_MAX -> 0 <= idx ->
  elem_idx idx = elem_idx (bit_cnt b - 1) ->
  Z.testbit (last_mask b) (idx mod ELEM_BITS) = (idx <? bit_cnt b) /\
  Z.testbit (Z.land w (last_mask b)) (idx mod ELEM_BITS) =
    Z.testbit w (idx mod ELEM_BITS) && (idx <? bit_cnt b).
Proof.
  intros Hn Hidx He.
  assert (Hmask : Z.testbit (last_mask b) (idx mod ELEM_BITS)
                  = (idx <? bit_cnt b)).
  { unfold last_mask, elem_idx, ELEM_BITS in *.
    pose proof (Z.mod_pos_bound idx 32 ltac:(lia)) as Hm.
    pose proof (Z.mod_pos_bound (bit_cnt b) 32 ltac:(lia)) as Hmn.
    pose proof (Z.div_mod idx 32 ltac:(lia)) as Hdi.
    pose proof (Z.div_mod (bit_cnt b) 32 ltac:(lia)) as Hdn.
    pose proof (Z.div_mod (bit_cnt b - 1) 32 ltac:(lia)) as Hdn1.
    pose proof (Z.mod_pos_bound (bit_cnt b - 1) 32 ltac:(lia)) as Hmn1.
    destruct (Z.eqb_spec (bit_cnt b mod 32) 0) as [Hz | Hnz]; cbn [negb].
    - change (wrap (-1)) with (Z.ones 32).
      rewrite Z.ones_spec_low by lia.
      symmetry. apply Z.ltb_lt. lia.
    - rewrite Z.shiftl_1_l.
      assert (Hpow : 2 ^ (bit_cnt b mod 32) <= 2 ^ 31)
        by (apply Z.pow_le_mono_r; lia).
      assert (Hpos : 0 < 2 ^ (bit_cnt b mod 32))
        by (apply Z.pow_pos_nonneg; lia).
      change (2 ^ 31) with 2147483648 in Hpow.
      rewrite wrap_small by (rewrite SIZE_MAX_val; lia).
      replace (2 ^ (bit_cnt b mod 32) - 1)
        with (Z.ones (bit_cnt b mod 32))
        by (rewrite Z.ones_equiv; lia).
      destruct (Z.ltb_spec idx (bit_cnt b)) as [Hlt | Hge].
      + apply Z.ones_spec_low. lia.
      + apply Z.ones_spec_high. lia. }
  split; [exact Hmask |].
  rewrite Z.land_spec, Hmask. reflexivity.
Qed.

Lemma last_mask_bits_witness :
  Z.testbit (last_mask bm_free_5_10) (25 mod ELEM_BITS)
    = (25 <? bit_cnt bm_free_5_10) /\
  Z.testbit (Z.land 4294967295 (last_mask bm_free_5_10)) (25 mod ELEM_BITS) =
    Z.testbit 4294967295 (25 mod ELEM_BITS) && (25 <? bit_cnt bm_free_5_10).
Proof.
  apply (last_mask_bits bm_free_5_10 25 4294967295).
  - simpl. rewrite SIZE_MAX_val. lia.
  - lia.
  - reflexivity.
Defined.
